(** * The pricing engine of the trading backend, embedded in Rocq

    Source: [backend/include/pricing_engine.h] and
    [backend/src/pricing_engine.cpp] (namespace [trading], class
    [PricingEngine]).

    The engine computes on C++ [double]s and [uint64_t]s.  Every function
    is written once, over an interface [Double] of the operations the code
    applies to a [double]; the interface has two instances:

    - [binary64]: IEEE 754 binary64, Rocq's primitive floats, which is what
      the compiled code runs on (with its infinities, its NaN and its
      rounding); the three libm functions the engine calls ([std::log],
      [std::exp], [std::erf]) are a parameter of that instance;
    - [exact]: the real numbers, the arithmetic in which the formulas of the
      pricing model are stated.

    Each operation on doubles rounds once, as the code compiled for
    x86-64 does (no product and sum are fused).

    A [uint64_t] is a [Z] in [0, 2^64) whose arithmetic is reduced modulo
    2^64 where the code computes with it; a [std::map<std::string, V>] is an
    association list kept in ascending key order; a [time_point] is the
    integer count of clock ticks since the epoch, the difference of two of
    them is reduced to a signed 64-bit count as the compiled code does, and
    the reading of the clock is an argument [now] of the functions that
    read it; [std::sort] is any function with the contract of the library,
    and the runs use the pass that libstdc++ makes on a short range.

    The statements come after the definitions, one section per property:
    C1 expiry, C2 the selected venue, C3 the ranking, C4 the liquidity
    score, C5 the impact cost, C6 put-call parity, C7 the window of 30
    samples, C8 the average, C9 volume compliance, C10 ties. *)

From Stdlib Require Import ZArith String Ascii List Bool Lia Permutation Sorted.
From Stdlib Require Import Floats.
From Stdlib Require Import Reals Lra Factorial.
From Stdlib Require OrderedTypeEx.
Import ListNotations.

#[local] Open Scope Z_scope.
#[local] Open Scope string_scope.
#[local] Open Scope list_scope.

(* ================================================================== *)
(** ** [std::map<std::string, V>] *)

Module StdMap.
Section Map.
Context {V : Type}.

Definition t := list (string * V).

Definition empty : t := [].

(** [m.find(k)]: [None] stands for [m.end()]. *)
Fixpoint find (k : string) (m : t) : option V :=
  match m with
  | [] => None
  | (k', v) :: m' => if String.eqb k k' then Some v else find k m'
  end.

(** [m[k] = v]: replaces the entry of [k] or adds one, at its place in the
    ascending order of the keys. *)
Fixpoint insert (k : string) (v : V) (m : t) : t :=
  match m with
  | [] => [(k, v)]
  | (k', v') :: m' =>
      match String.compare k k' with
      | Lt => (k, v) :: m
      | Eq => (k, v) :: m'
      | Gt => (k', v') :: insert k v m'
      end
  end.

(** The values in iteration order ([for (const auto& pair : m)]). *)
Definition values (m : t) : list V := map snd m.
End Map.
Arguments t : clear implicits.
End StdMap.

(* ================================================================== *)
(** ** The operations on [double] *)

Class Double (D : Type) : Type := {
  of_Z  : Z -> D;            (* conversion of an integer to double *)
  add   : D -> D -> D;
  sub   : D -> D -> D;
  mul   : D -> D -> D;
  div   : D -> D -> D;
  opp   : D -> D;
  fabs  : D -> D;            (* std::abs *)
  ltb   : D -> D -> bool;    (* <  *)
  leb   : D -> D -> bool;    (* <= *)
  sqrt  : D -> D;            (* std::sqrt *)
  log   : D -> D;            (* std::log *)
  exp   : D -> D;            (* std::exp *)
  erf   : D -> D;            (* std::erf *)
  M_PI  : D
}.

Declare Scope double_scope.
Delimit Scope double_scope with D.
Notation "x + y" := (add x y) : double_scope.
Notation "x - y" := (sub x y) : double_scope.
Notation "x * y" := (mul x y) : double_scope.
Notation "x / y" := (div x y) : double_scope.
Notation "- x" := (opp x) : double_scope.
Notation "x <? y" := (ltb x y) : double_scope.
Notation "x <=? y" := (leb x y) : double_scope.
Notation "x >? y" := (ltb y x) : double_scope.

(** A decimal literal of the source, [n/d] with [d] a power of ten: the
    quotient of two integers that a double holds exactly is rounded once,
    so on binary64 it is the double the compiler reads the literal as. *)
Definition lit {D} `{Double D} (n d : Z) : D := (of_Z n / of_Z d)%D.

(** [std::max(a, b)] is [(a < b) ? b : a], [std::min(a, b)] is
    [(b < a) ? b : a]. *)
Definition std_max {D} `{Double D} (a b : D) : D := if (a <? b)%D then b else a.
Definition std_min {D} `{Double D} (a b : D) : D := if (b <? a)%D then b else a.

(** 2^64, the modulus of [uint64_t]. *)
Definition two64 : Z := 18446744073709551616.
Definition wrap64 (z : Z) : Z := z mod two64.

(** A signed 64-bit integer, as a count of clock ticks is: a result out of
    [-2^63, 2^63) wraps around in the compiled code (the language leaves
    the overflow undefined). *)
Definition two63 : Z := 9223372036854775808.
Definition wrap_int64 (z : Z) : Z := (z + two63) mod two64 - two63.

(* ================================================================== *)
(** ** The structs of [pricing_engine.h] *)

Module MarketData.
Section Def.
Context {D : Type}.
Record t : Type := mk {
  symbol : string;
  price : D;
  bid : D;
  ask : D;
  volume : Z;
  open_interest : Z;
  change : D;
  change_percent : D;
  last_updated : Z;
  exchange : string
}.
End Def.
Arguments t : clear implicits.
End MarketData.

Module ContractDetails.
Section Def.
Context {D : Type}.
Record t : Type := mk {
  symbol : string;
  underlying : string;
  instrument_type : string;
  strike : D;
  expiry : Z;
  option_type : string;
  lot_size : D;
  tick_size : D
}.
End Def.
Arguments t : clear implicits.
End ContractDetails.

Module PriceComparison.
Section Def.
Context {D : Type}.
Record t : Type := mk {
  symbol : string;
  instrument_type : string;
  nse_price : D;
  bse_price : D;
  fair_value : D;
  percentage_diff : D;
  is_recommended : bool;
  liquidity_score : D;
  volume_30day : Z;
  current_volume : Z;
  open_interest : Z;
  exchange : string;
  expiry_date : Z;
  bid_ask_spread : D;
  impact_cost : D;
  volume_compliant : bool
}.
End Def.
Arguments t : clear implicits.
End PriceComparison.

Module OptionGreeks.
Section Def.
Context {D : Type}.
Record t : Type := mk {
  delta : D;
  gamma : D;
  theta : D;
  vega : D;
  rho : D
}.
End Def.
Arguments t : clear implicits.
End OptionGreeks.

(** The data members of [PricingEngine]. *)
Module PricingEngine.
Section Def.
Context {D : Type}.
Record t : Type := mk {
  nse_market_data_ : StdMap.t (MarketData.t D);
  bse_market_data_ : StdMap.t (MarketData.t D);
  contracts_ : StdMap.t (ContractDetails.t D);
  historical_volumes_ : StdMap.t (list Z);
  risk_free_rate_ : D;
  volume_threshold_ : D;
  implied_volatilities_ : StdMap.t D
}.
End Def.
Arguments t : clear implicits.
End PricingEngine.

(* ================================================================== *)
(** ** [std::sort]

    The library promises the result only through its postcondition: when
    [comp] is a strict weak ordering of the elements, the result is a
    rearrangement of the range in which no element is [comp]-before an
    element that precedes it.  The engine is written over any sort with that
    contract; [insertion_sort] below is one, and
    [libstdcxx_insertion_sort], which the runs use, another. *)

Definition equiv {A} (comp : A -> A -> bool) (a b : A) : Prop :=
  comp a b = false /\ comp b a = false.

Record strict_weak_ordering {A} (comp : A -> A -> bool) (l : list A) : Prop := {
  swo_irrefl : forall a, In a l -> comp a a = false;
  swo_trans : forall a b c, In a l -> In b l -> In c l ->
      comp a b = true -> comp b c = true -> comp a c = true;
  swo_equiv_trans : forall a b c, In a l -> In b l -> In c l ->
      equiv comp a b -> equiv comp b c -> equiv comp a c
}.

Definition sorted_wrt {A} (comp : A -> A -> bool) (l : list A) : Prop :=
  StronglySorted (fun a b => comp b a = false) l.

Class StdSort : Type := {
  std_sort : forall {A : Type}, (A -> A -> bool) -> list A -> list A;
  std_sort_spec : forall (A : Type) (comp : A -> A -> bool) (l : list A),
      strict_weak_ordering comp l ->
      Permutation l (std_sort comp l) /\ sorted_wrt comp (std_sort comp l)
}.

(** Straight insertion: [x] goes before the first element that it is
    [comp]-before. *)
Fixpoint insert_sorted {A} (comp : A -> A -> bool) (x : A) (l : list A) : list A :=
  match l with
  | [] => [x]
  | y :: l' => if comp x y then x :: l else y :: insert_sorted comp x l'
  end.

Definition insertion_sort {A} (comp : A -> A -> bool) (l : list A) : list A :=
  fold_left (fun acc x => insert_sorted comp x acc) l [].

(** The pass that libstdc++ makes for [std::sort] on a range of at most 16
    elements, [__insertion_sort]: each element in turn goes to the front
    when it is [comp]-before the first element, and otherwise moves towards
    the front past every element that it is [comp]-before, stopping at the
    first that it is not ([__unguarded_linear_insert]).  [before] is the
    part of the range already passed, the nearest element first. *)
Fixpoint unguarded_linear_insert {A} (comp : A -> A -> bool) (val : A)
    (before : list A) : list A :=
  match before with
  | [] => [val]
  | next :: before' =>
      if comp val next then next :: unguarded_linear_insert comp val before'
      else val :: before
  end.

Definition linear_insert {A} (comp : A -> A -> bool) (before : list A) (val : A)
    : list A :=
  match rev before with
  | [] => [val]
  | first :: _ =>
      if comp val first then (before ++ [val])%list
      else unguarded_linear_insert comp val before
  end.

Definition libstdcxx_insertion_sort {A} (comp : A -> A -> bool) (l : list A)
    : list A :=
  rev (fold_left (linear_insert comp) l []).

(** The part already passed, nearest element first, is in descending
    order. *)
Definition descending {A} (comp : A -> A -> bool) (before : list A) : Prop :=
  StronglySorted (fun a b => comp a b = false) before.

(* ================================================================== *)
(** ** The member functions of [PricingEngine] *)

Section Engine.
Context {D : Type} {num : Double D} {sorter : StdSort}.
#[local] Open Scope double_scope.

#[local] Abbreviation MarketData := (MarketData.t D).
#[local] Abbreviation ContractDetails := (ContractDetails.t D).
#[local] Abbreviation PriceComparison := (PriceComparison.t D).
#[local] Abbreviation OptionGreeks := (OptionGreeks.t D).
#[local] Abbreviation PricingEngine := (PricingEngine.t D).

(** The constructor: 6% risk-free rate, 5% volume threshold, three
    default implied volatilities. *)
Definition new : PricingEngine :=
  {| PricingEngine.nse_market_data_ := StdMap.empty;
     PricingEngine.bse_market_data_ := StdMap.empty;
     PricingEngine.contracts_ := StdMap.empty;
     PricingEngine.historical_volumes_ := StdMap.empty;
     PricingEngine.risk_free_rate_ := lit 6 100;
     PricingEngine.volume_threshold_ := lit 5 100;
     PricingEngine.implied_volatilities_ :=
       StdMap.insert "FINNIFTY" (lit 16 100)
         (StdMap.insert "BANKNIFTY" (lit 18 100)
            (StdMap.insert "NIFTY" (lit 15 100) StdMap.empty)) |}.

Definition setRiskFreeRate (this : PricingEngine) (rate : D) : PricingEngine :=
  {| PricingEngine.nse_market_data_ := PricingEngine.nse_market_data_ this;
     PricingEngine.bse_market_data_ := PricingEngine.bse_market_data_ this;
     PricingEngine.contracts_ := PricingEngine.contracts_ this;
     PricingEngine.historical_volumes_ := PricingEngine.historical_volumes_ this;
     PricingEngine.risk_free_rate_ := rate;
     PricingEngine.volume_threshold_ := PricingEngine.volume_threshold_ this;
     PricingEngine.implied_volatilities_ := PricingEngine.implied_volatilities_ this |}.

Definition setVolumeThreshold (this : PricingEngine) (threshold : D) : PricingEngine :=
  {| PricingEngine.nse_market_data_ := PricingEngine.nse_market_data_ this;
     PricingEngine.bse_market_data_ := PricingEngine.bse_market_data_ this;
     PricingEngine.contracts_ := PricingEngine.contracts_ this;
     PricingEngine.historical_volumes_ := PricingEngine.historical_volumes_ this;
     PricingEngine.risk_free_rate_ := PricingEngine.risk_free_rate_ this;
     PricingEngine.volume_threshold_ := threshold;
     PricingEngine.implied_volatilities_ := PricingEngine.implied_volatilities_ this |}.

(* ---------------------------------------------------------------- *)
(** *** Historical volumes *)

(** [volumes = historical_volumes_[symbol]] (an empty vector when the
    symbol is new), [push_back], and [erase(begin())] when more than 30
    entries are held. *)
Definition updateHistoricalVolume (this : PricingEngine) (symbol : string)
    (volume : Z) : PricingEngine :=
  let volumes :=
    (match StdMap.find symbol (PricingEngine.historical_volumes_ this) with
     | Some vs => vs
     | None => []
     end ++ [volume])%list in
  let volumes :=
    if (30 <? List.length volumes)%nat then tl volumes else volumes in
  {| PricingEngine.nse_market_data_ := PricingEngine.nse_market_data_ this;
     PricingEngine.bse_market_data_ := PricingEngine.bse_market_data_ this;
     PricingEngine.contracts_ := PricingEngine.contracts_ this;
     PricingEngine.historical_volumes_ :=
       StdMap.insert symbol volumes (PricingEngine.historical_volumes_ this);
     PricingEngine.risk_free_rate_ := PricingEngine.risk_free_rate_ this;
     PricingEngine.volume_threshold_ := PricingEngine.volume_threshold_ this;
     PricingEngine.implied_volatilities_ := PricingEngine.implied_volatilities_ this |}.

(** [std::accumulate(volumes.begin(), volumes.end(), 0ULL)]: a sum of
    [unsigned long long], modulo 2^64. *)
Definition accumulate (volumes : list Z) : Z :=
  fold_left (fun acc v => wrap64 (acc + v)%Z) volumes 0%Z.

(** [sum / volumes.size()] divides two unsigned 64-bit integers. *)
Definition get30DayAverageVolume (this : PricingEngine) (symbol : string) : Z :=
  match StdMap.find symbol (PricingEngine.historical_volumes_ this) with
  | None => 0%Z
  | Some [] => 0%Z
  | Some volumes => (accumulate volumes / Z.of_nat (List.length volumes))%Z
  end.

(* ---------------------------------------------------------------- *)
(** *** Market data and contracts *)

Definition store_quote (this : PricingEngine) (md : MarketData) : PricingEngine :=
  let nse :=
    if String.eqb (MarketData.exchange md) "NSE"
    then StdMap.insert (MarketData.symbol md) md (PricingEngine.nse_market_data_ this)
    else PricingEngine.nse_market_data_ this in
  let bse :=
    if String.eqb (MarketData.exchange md) "NSE" then PricingEngine.bse_market_data_ this
    else if String.eqb (MarketData.exchange md) "BSE"
    then StdMap.insert (MarketData.symbol md) md (PricingEngine.bse_market_data_ this)
    else PricingEngine.bse_market_data_ this in
  {| PricingEngine.nse_market_data_ := nse;
     PricingEngine.bse_market_data_ := bse;
     PricingEngine.contracts_ := PricingEngine.contracts_ this;
     PricingEngine.historical_volumes_ := PricingEngine.historical_volumes_ this;
     PricingEngine.risk_free_rate_ := PricingEngine.risk_free_rate_ this;
     PricingEngine.volume_threshold_ := PricingEngine.volume_threshold_ this;
     PricingEngine.implied_volatilities_ := PricingEngine.implied_volatilities_ this |}.

(** The loop of [updateMarketData]: each quote is stored under its venue
    and its volume appended to the history of its symbol. *)
Definition updateMarketData (this : PricingEngine) (data : list MarketData)
    : PricingEngine :=
  fold_left
    (fun this md =>
       updateHistoricalVolume (store_quote this md)
         (MarketData.symbol md) (MarketData.volume md))
    data this.

(** [now] is the reading of [system_clock::now()]. *)
Definition getMarketData (this : PricingEngine) (now : Z) (symbol exchange : string)
    : MarketData :=
  let empty_data :=
    {| MarketData.symbol := symbol;
       MarketData.price := of_Z 0;
       MarketData.bid := of_Z 0;
       MarketData.ask := of_Z 0;
       MarketData.volume := 0;
       MarketData.open_interest := 0;
       MarketData.change := of_Z 0;
       MarketData.change_percent := of_Z 0;
       MarketData.last_updated := now;
       MarketData.exchange := exchange |} in
  match (if String.eqb exchange "NSE"
         then StdMap.find symbol (PricingEngine.nse_market_data_ this)
         else None) with
  | Some md => md
  | None =>
      match (if String.eqb exchange "BSE"
             then StdMap.find symbol (PricingEngine.bse_market_data_ this)
             else None) with
      | Some md => md
      | None => empty_data
      end
  end.

Definition addContract (this : PricingEngine) (contract : ContractDetails)
    : PricingEngine :=
  {| PricingEngine.nse_market_data_ := PricingEngine.nse_market_data_ this;
     PricingEngine.bse_market_data_ := PricingEngine.bse_market_data_ this;
     PricingEngine.contracts_ :=
       StdMap.insert (ContractDetails.symbol contract) contract
         (PricingEngine.contracts_ this);
     PricingEngine.historical_volumes_ := PricingEngine.historical_volumes_ this;
     PricingEngine.risk_free_rate_ := PricingEngine.risk_free_rate_ this;
     PricingEngine.volume_threshold_ := PricingEngine.volume_threshold_ this;
     PricingEngine.implied_volatilities_ := PricingEngine.implied_volatilities_ this |}.

Definition getContracts (this : PricingEngine) (underlying : string)
    : list ContractDetails :=
  filter (fun c => String.eqb (ContractDetails.underlying c) underlying)
    (StdMap.values (PricingEngine.contracts_ this)).

(* ---------------------------------------------------------------- *)
(** *** Pricing *)

(** [0.5 * (1.0 + std::erf(x / std::sqrt(2.0)))] *)
Definition normalCDF (x : D) : D :=
  lit 1 2 * (of_Z 1 + erf (x / sqrt (of_Z 2))).

(** [(1.0 / std::sqrt(2.0 * M_PI)) * std::exp(-0.5 * x * x)] *)
Definition normalPDF (x : D) : D :=
  (of_Z 1 / sqrt (of_Z 2 * M_PI)) * exp (- lit 1 2 * x * x).

(** A tick of [system_clock] is a nanosecond, counted in a signed 64-bit
    integer: [expiry - now] wraps around when the two are 2^63 ticks or more
    apart.  [duration_cast<hours>] truncates towards zero. *)
Definition ticks_per_hour : Z := 3600000000000.

Definition getTimeToExpiry (now expiry : Z) : D :=
  let duration := wrap_int64 (expiry - now) in
  let days := of_Z (Z.quot duration ticks_per_hour) / of_Z 24 in
  std_max (of_Z 0) (days / of_Z 365).

Definition d1_of (spot strike time_to_expiry risk_free_rate volatility : D) : D :=
  (log (spot / strike)
     + (risk_free_rate + lit 1 2 * volatility * volatility) * time_to_expiry)
  / (volatility * sqrt time_to_expiry).

Definition blackScholes (spot strike time_to_expiry risk_free_rate volatility : D)
    (is_call : bool) : D :=
  if time_to_expiry <=? of_Z 0 then
    if is_call then std_max (of_Z 0) (spot - strike)
    else std_max (of_Z 0) (strike - spot)
  else
    let d1 := d1_of spot strike time_to_expiry risk_free_rate volatility in
    let d2 := d1 - volatility * sqrt time_to_expiry in
    if is_call then
      spot * normalCDF d1
      - strike * exp (- risk_free_rate * time_to_expiry) * normalCDF d2
    else
      strike * exp (- risk_free_rate * time_to_expiry) * normalCDF (- d2)
      - spot * normalCDF (- d1).

Definition calculateOptionFairValue
    (spot_price strike time_to_expiry risk_free_rate volatility : D)
    (option_type : string) : D :=
  let is_call := String.eqb option_type "CE" in
  blackScholes spot_price strike time_to_expiry risk_free_rate volatility is_call.

Definition calculateDelta (spot strike time_to_expiry risk_free_rate volatility : D)
    (is_call : bool) : D :=
  if time_to_expiry <=? of_Z 0 then of_Z 0
  else
    let d1 := d1_of spot strike time_to_expiry risk_free_rate volatility in
    if is_call then normalCDF d1 else normalCDF d1 - of_Z 1.

Definition calculateGamma (spot strike time_to_expiry risk_free_rate volatility : D)
    : D :=
  if time_to_expiry <=? of_Z 0 then of_Z 0
  else
    let d1 := d1_of spot strike time_to_expiry risk_free_rate volatility in
    normalPDF d1 / (spot * volatility * sqrt time_to_expiry).

Definition calculateTheta (spot strike time_to_expiry risk_free_rate volatility : D)
    (is_call : bool) : D :=
  if time_to_expiry <=? of_Z 0 then of_Z 0
  else
    let d1 := d1_of spot strike time_to_expiry risk_free_rate volatility in
    let d2 := d1 - volatility * sqrt time_to_expiry in
    let term1 := - (spot * normalPDF d1 * volatility) / (of_Z 2 * sqrt time_to_expiry) in
    let term2 := risk_free_rate * strike * exp (- risk_free_rate * time_to_expiry) in
    if is_call then (term1 - term2 * normalCDF d2) / of_Z 365
    else (term1 + term2 * normalCDF (- d2)) / of_Z 365.

Definition calculateVega (spot strike time_to_expiry risk_free_rate volatility : D)
    : D :=
  if time_to_expiry <=? of_Z 0 then of_Z 0
  else
    let d1 := d1_of spot strike time_to_expiry risk_free_rate volatility in
    spot * normalPDF d1 * sqrt time_to_expiry / of_Z 100.

Definition calculateGreeks
    (spot_price strike time_to_expiry risk_free_rate volatility : D)
    (option_type : string) : OptionGreeks :=
  let is_call := String.eqb option_type "CE" in
  {| OptionGreeks.delta :=
       calculateDelta spot_price strike time_to_expiry risk_free_rate volatility is_call;
     OptionGreeks.gamma :=
       calculateGamma spot_price strike time_to_expiry risk_free_rate volatility;
     OptionGreeks.theta :=
       calculateTheta spot_price strike time_to_expiry risk_free_rate volatility is_call;
     OptionGreeks.vega :=
       calculateVega spot_price strike time_to_expiry risk_free_rate volatility;
     OptionGreeks.rho := of_Z 0 |}.

(** [implied_volatilities_[underlying]] reads 0.0 for an underlying that
    has no entry (and leaves an entry 0.0 behind, which reads the same). *)
Definition implied_volatility (this : PricingEngine) (underlying : string) : D :=
  match StdMap.find underlying (PricingEngine.implied_volatilities_ this) with
  | Some v => v
  | None => of_Z 0
  end.

Definition calculateFairValue (this : PricingEngine) (now : Z)
    (contract : ContractDetails) : D :=
  if String.eqb (ContractDetails.instrument_type contract) "CASH" then
    let nse_data := getMarketData this now (ContractDetails.symbol contract) "NSE" in
    let bse_data := getMarketData this now (ContractDetails.symbol contract) "BSE" in
    let total_volume :=
      of_Z (wrap64 (MarketData.volume nse_data + MarketData.volume bse_data)) in
    if total_volume >? of_Z 0 then
      (MarketData.price nse_data * of_Z (MarketData.volume nse_data)
       + MarketData.price bse_data * of_Z (MarketData.volume bse_data))
      / total_volume
    else (MarketData.price nse_data + MarketData.price bse_data) / of_Z 2
  else if String.eqb (ContractDetails.instrument_type contract) "FUTURE" then
    let spot_data := getMarketData this now (ContractDetails.underlying contract) "NSE" in
    let time_to_expiry := getTimeToExpiry now (ContractDetails.expiry contract) in
    MarketData.price spot_data
    * exp (PricingEngine.risk_free_rate_ this * time_to_expiry)
  else if String.eqb (ContractDetails.instrument_type contract) "OPTION" then
    let spot_data := getMarketData this now (ContractDetails.underlying contract) "NSE" in
    let time_to_expiry := getTimeToExpiry now (ContractDetails.expiry contract) in
    let volatility := implied_volatility this (ContractDetails.underlying contract) in
    calculateOptionFairValue (MarketData.price spot_data)
      (ContractDetails.strike contract) time_to_expiry
      (PricingEngine.risk_free_rate_ this) volatility
      (ContractDetails.option_type contract)
  else of_Z 0.

(* ---------------------------------------------------------------- *)
(** *** Liquidity *)

Definition calculateLiquidityScore (data : MarketData) (volume_30day : Z) : D :=
  if (volume_30day =? 0)%Z then of_Z 0
  else
    let volume_ratio := of_Z (MarketData.volume data) / of_Z volume_30day in
    let oi_factor :=
      std_min (of_Z 1) (of_Z (MarketData.open_interest data) / of_Z 1000000) in
    let spread_factor :=
      of_Z 1
      / (of_Z 1
         + (MarketData.ask data - MarketData.bid data) / MarketData.price data
           * of_Z 100) in
    volume_ratio * lit 4 10 + oi_factor * lit 3 10 + spread_factor * lit 3 10.

Definition checkVolumeConstraints (this : PricingEngine) (symbol : string)
    (quantity : D) : bool :=
  let avg_volume := get30DayAverageVolume this symbol in
  let threshold_volume := of_Z avg_volume * PricingEngine.volume_threshold_ this in
  quantity <=? threshold_volume.

Definition calculateImpactCost (data : MarketData) (quantity : D) : D :=
  let volume_ratio := quantity / of_Z (MarketData.volume data) in
  volume_ratio * (MarketData.ask data - MarketData.bid data)
  / MarketData.price data * of_Z 100.

Definition selectOptimalExchange (nse_data bse_data : MarketData) : string :=
  let nse_spread :=
    (MarketData.ask nse_data - MarketData.bid nse_data) / MarketData.price nse_data in
  let bse_spread :=
    (MarketData.ask bse_data - MarketData.bid bse_data) / MarketData.price bse_data in
  if fabs (nse_spread - bse_spread) <? lit 1 1000 then
    if (MarketData.volume bse_data <? MarketData.volume nse_data)%Z then "NSE" else "BSE"
  else if nse_spread <? bse_spread then "NSE" else "BSE".

(* ---------------------------------------------------------------- *)
(** *** Comparison of the two venues *)

(** The body of the [for] loop of [compareContracts]. *)
Definition compareContract (this : PricingEngine) (now : Z) (target_quantity : D)
    (contract : ContractDetails) : PriceComparison :=
  let symbol := ContractDetails.symbol contract in
  let nse_data := getMarketData this now symbol "NSE" in
  let bse_data := getMarketData this now symbol "BSE" in
  let fair_value := calculateFairValue this now contract in
  let nse_diff :=
    fabs (MarketData.price nse_data - fair_value) / fair_value * of_Z 100 in
  let bse_diff :=
    fabs (MarketData.price bse_data - fair_value) / fair_value * of_Z 100 in
  let '(percentage_diff, exchange, current_volume, open_interest, liquidity_score) :=
    if nse_diff <? bse_diff then
      ((MarketData.price nse_data - fair_value) / fair_value * of_Z 100,
       "NSE",
       MarketData.volume nse_data,
       MarketData.open_interest nse_data,
       calculateLiquidityScore nse_data (get30DayAverageVolume this symbol))
    else
      ((MarketData.price bse_data - fair_value) / fair_value * of_Z 100,
       "BSE",
       MarketData.volume bse_data,
       MarketData.open_interest bse_data,
       calculateLiquidityScore bse_data (get30DayAverageVolume this symbol)) in
  let volume_compliant := checkVolumeConstraints this symbol target_quantity in
  let selected_data := if String.eqb exchange "NSE" then nse_data else bse_data in
  let bid_ask_spread :=
    (MarketData.ask selected_data - MarketData.bid selected_data)
    / MarketData.price selected_data * of_Z 100 in
  let impact_cost := calculateImpactCost selected_data target_quantity in
  {| PriceComparison.symbol := symbol;
     PriceComparison.instrument_type := ContractDetails.instrument_type contract;
     PriceComparison.nse_price := MarketData.price nse_data;
     PriceComparison.bse_price := MarketData.price bse_data;
     PriceComparison.fair_value := fair_value;
     PriceComparison.percentage_diff := percentage_diff;
     PriceComparison.is_recommended :=
       (fabs percentage_diff <? lit 5 10)
       && (liquidity_score >? lit 6 10)
       && volume_compliant
       && (bid_ask_spread <? of_Z 1);
     PriceComparison.liquidity_score := liquidity_score;
     PriceComparison.volume_30day := get30DayAverageVolume this symbol;
     PriceComparison.current_volume := current_volume;
     PriceComparison.open_interest := open_interest;
     PriceComparison.exchange := exchange;
     PriceComparison.expiry_date := ContractDetails.expiry contract;
     PriceComparison.bid_ask_spread := bid_ask_spread;
     PriceComparison.impact_cost := impact_cost;
     PriceComparison.volume_compliant := volume_compliant |}.

(** The comparator handed to [std::sort]. *)
Definition by_abs_percentage_diff (a b : PriceComparison) : bool :=
  fabs (PriceComparison.percentage_diff a) <? fabs (PriceComparison.percentage_diff b).

Definition compareContracts (this : PricingEngine) (now : Z) (underlying : string)
    (target_quantity : D) : list PriceComparison :=
  let comparisons :=
    map (compareContract this now target_quantity) (getContracts this underlying) in
  std_sort by_abs_percentage_diff comparisons.

(** [PriceComparison{}] *)
Definition empty_comparison : PriceComparison :=
  {| PriceComparison.symbol := "";
     PriceComparison.instrument_type := "";
     PriceComparison.nse_price := of_Z 0;
     PriceComparison.bse_price := of_Z 0;
     PriceComparison.fair_value := of_Z 0;
     PriceComparison.percentage_diff := of_Z 0;
     PriceComparison.is_recommended := false;
     PriceComparison.liquidity_score := of_Z 0;
     PriceComparison.volume_30day := 0;
     PriceComparison.current_volume := 0;
     PriceComparison.open_interest := 0;
     PriceComparison.exchange := "";
     PriceComparison.expiry_date := 0;
     PriceComparison.bid_ask_spread := of_Z 0;
     PriceComparison.impact_cost := of_Z 0;
     PriceComparison.volume_compliant := false |}.

Definition findOptimalContract (this : PricingEngine) (now : Z)
    (underlying instrument_type : string) (target_quantity : D) : PriceComparison :=
  let comparisons := compareContracts this now underlying target_quantity in
  match List.find
          (fun comp => String.eqb (PriceComparison.instrument_type comp) instrument_type)
          comparisons with
  | Some comp => comp
  | None => empty_comparison
  end.

End Engine.

(* ================================================================== *)
(** ** Binary64: the arithmetic the engine runs on *)

(** The functions of [<cmath>] that the processor does not provide. *)
Class Libm : Type := {
  c_log : float -> float;
  c_exp : float -> float;
  c_erf : float -> float
}.

(** The conversion of an integer to [double], rounding to nearest, ties to
    even. *)
Definition float_of_Z (z : Z) : float :=
  SF2Prim (binary_normalize prec emax z 0 false).

#[export] Instance binary64 {libm : Libm} : Double float := {|
  of_Z := float_of_Z;
  add := PrimFloat.add;
  sub := PrimFloat.sub;
  mul := PrimFloat.mul;
  div := PrimFloat.div;
  opp := PrimFloat.opp;
  fabs := PrimFloat.abs;
  ltb := PrimFloat.ltb;
  leb := PrimFloat.leb;
  sqrt := PrimFloat.sqrt;
  log := c_log;
  exp := c_exp;
  erf := c_erf;
  M_PI := 0x1.921fb54442d18p+1%float
|}.

(** A libm for the runs below that never reach one of its functions (cash
    contracts, expired options, the liquidity functions): every call would
    answer NaN. *)
Definition no_libm : Libm :=
  {| c_log := fun _ => nan; c_exp := fun _ => nan; c_erf := fun _ => nan |}.

(* ================================================================== *)
(** ** Exact arithmetic: the real numbers *)

(** The error function, by its power series
    [erf x = 2/sqrt(pi) * sum_n (-1)^n x^(2n+1) / (n! (2n+1))]. *)
Definition erf_coeff (n : nat) : R :=
  ((-1) ^ n / (INR (fact n) * INR (2 * n + 1)))%R.

Lemma erf_coeff_neq_0 : forall n, erf_coeff n <> 0%R.
Proof.
  intro n. unfold erf_coeff, Rdiv.
  apply Rmult_integral_contrapositive_currified.
  - apply pow_nonzero. lra.
  - apply Rinv_neq_0_compat, Rmult_integral_contrapositive_currified.
    + apply INR_fact_neq_0.
    + apply not_0_INR. lia.
Qed.

Lemma erf_coeff_ratio n :
  (Rabs (erf_coeff (S n) / erf_coeff n)
   <= Rabs (/ INR (fact (S n)) * / / INR (fact n)))%R.
Proof.
  assert (F := INR_fact_neq_0 n). assert (F' := INR_fact_neq_0 (S n)).
  assert (P : ((-1) ^ n <> 0)%R) by (apply pow_nonzero; lra).
  assert (A : (0 < INR (2 * n + 1))%R) by (apply lt_0_INR; lia).
  assert (B : (0 < INR (2 * S n + 1))%R) by (apply lt_0_INR; lia).
  assert (AB : (INR (2 * n + 1) <= INR (2 * S n + 1))%R) by (apply le_INR; lia).
  replace (erf_coeff (S n) / erf_coeff n)%R
    with (- (/ INR (fact (S n)) * / / INR (fact n))
          * (INR (2 * n + 1) / INR (2 * S n + 1)))%R.
  - rewrite Rabs_mult, Rabs_Ropp.
    rewrite <- (Rmult_1_r (Rabs (/ INR (fact (S n)) * / / INR (fact n)))) at 2.
    apply Rmult_le_compat_l; [apply Rabs_pos|].
    rewrite Rabs_pos_eq.
    + apply Rmult_le_reg_r with (INR (2 * S n + 1)); [lra|].
      unfold Rdiv. rewrite Rmult_assoc, Rinv_l; lra.
    + apply Rlt_le, Rdiv_lt_0_compat; lra.
  - unfold erf_coeff. change ((-1) ^ S n)%R with (-1 * (-1) ^ n)%R.
    field. repeat split; lra.
Qed.

Lemma erf_coeff_cv : Un_cv (fun n => Rabs (erf_coeff (S n) / erf_coeff n)) 0.
Proof.
  intros eps He. destruct (Alembert_exp eps He) as [N HN].
  exists N. intros n Hn. specialize (HN n Hn).
  unfold R_dist in *. rewrite Rminus_0_r in *. rewrite Rabs_Rabsolu in *.
  eapply Rle_lt_trans; [apply erf_coeff_ratio|exact HN].
Qed.

Definition erf_series (y : R) : R :=
  proj1_sig (Alembert_C3 erf_coeff y erf_coeff_neq_0 erf_coeff_cv).

Definition Rerf (x : R) : R := (2 / R_sqrt.sqrt PI * (x * erf_series (x * x)))%R.

(** The quotient and the logarithm of the real numbers are total
    functions in Rocq ([x / 0 = 0], [ln x = 0] for [x <= 0]), where the
    arithmetic of the model has no value and the code computes an infinity
    or NaN: a statement in exact arithmetic is about the inputs that keep
    every divisor other than 0 and every argument of a logarithm positive,
    and says so in its hypotheses. *)
#[export] Instance exact : Double R := {|
  of_Z := IZR;
  add := Rplus;
  sub := Rminus;
  mul := Rmult;
  div := Rdiv;
  opp := Ropp;
  fabs := Rabs;
  ltb := fun x y => if Rlt_dec x y then true else false;
  leb := fun x y => if Rle_dec x y then true else false;
  sqrt := R_sqrt.sqrt;
  log := ln;
  exp := Rtrigo_def.exp;
  erf := Rerf;
  M_PI := PI
|}.

(* ================================================================== *)
(** ** Vocabulary of the statements *)

(** The stored history of a symbol (empty when the map has no entry). *)
Definition history {D} (this : PricingEngine.t D) (symbol : string) : list Z :=
  match StdMap.find symbol (PricingEngine.historical_volumes_ this) with
  | Some volumes => volumes
  | None => []
  end.

(** A run of [updateHistoricalVolume] calls, in order. *)
Definition appends {D} (this : PricingEngine.t D) (ops : list (string * Z))
    : PricingEngine.t D :=
  fold_left (fun this op => updateHistoricalVolume this (fst op) (snd op)) ops this.

(** The samples that a run appends for one symbol, in order. *)
Definition appended (symbol : string) (ops : list (string * Z)) : list Z :=
  map snd (filter (fun op => String.eqb (fst op) symbol) ops).

(** The last [n] elements of a list. *)
Definition last_n {A} (n : nat) (l : list A) : list A :=
  skipn (List.length l - n) l.

(** The sum of a list of integers, without wrap-around. *)
Definition total (l : list Z) : Z := fold_right Z.add 0 l.

(** The test of the [if] of [compareContracts] for one contract:
    [nse_diff < bse_diff]. *)
Definition nse_is_closer {D} `{Double D} (this : PricingEngine.t D) (now : Z)
    (contract : ContractDetails.t D) : bool :=
  let symbol := ContractDetails.symbol contract in
  let fair_value := calculateFairValue this now contract in
  (fabs (MarketData.price (getMarketData this now symbol "NSE") - fair_value)
     / fair_value * of_Z 100
   <? fabs (MarketData.price (getMarketData this now symbol "BSE") - fair_value)
        / fair_value * of_Z 100)%D.

(* ================================================================== *)
(** ** Data of the runs *)

Definition cash {D} `{Double D} (symbol underlying : string) : ContractDetails.t D :=
  {| ContractDetails.symbol := symbol; ContractDetails.underlying := underlying;
     ContractDetails.instrument_type := "CASH"; ContractDetails.strike := of_Z 0;
     ContractDetails.expiry := 0; ContractDetails.option_type := "";
     ContractDetails.lot_size := of_Z 1; ContractDetails.tick_size := lit 5 100 |}.

Definition quote {D} `{Double D} (symbol exchange : string) (price bid ask : D)
    (volume open_interest : Z) : MarketData.t D :=
  {| MarketData.symbol := symbol; MarketData.price := price;
     MarketData.bid := bid; MarketData.ask := ask;
     MarketData.volume := volume; MarketData.open_interest := open_interest;
     MarketData.change := of_Z 0; MarketData.change_percent := of_Z 0;
     MarketData.last_updated := 0; MarketData.exchange := exchange |}.

(** The quote of the liquidity example of the specification: price 100
    between 99 and 101, 5000 traded, open interest 500000. *)
Definition example_quote {D} `{Double D} : MarketData.t D :=
  quote "NIFTY" "NSE" (of_Z 100) (of_Z 99) (of_Z 101) 5000 500000.

(** The volumes 1, 2, ..., 31 appended for one symbol, between appends for
    another. *)
Definition thirty_one_appends : list (string * Z) :=
  ("BANKNIFTY", 7) ::
  map (fun v => ("NIFTY", v)) (map Z.of_nat (seq 1 31)) ++ [("BANKNIFTY", 9)].

Section RunData.
#[local] Existing Instance no_libm.

(** An index call struck at 20000. *)
Definition nifty_call (expiry : Z) : ContractDetails.t float :=
  {| ContractDetails.symbol := "NIFTY20000CE"; ContractDetails.underlying := "NIFTY";
     ContractDetails.instrument_type := "OPTION"; ContractDetails.strike := 20000%float;
     ContractDetails.expiry := expiry; ContractDetails.option_type := "CE";
     ContractDetails.lot_size := 50%float; ContractDetails.tick_size := lit 5 100 |}.

(** The call expires at tick 0 out of the money, the index being at
    19850; it last traded at 1 on NSE and at 2 on BSE. *)
Definition expired_call : PricingEngine.t float :=
  updateMarketData (addContract new (nifty_call 0))
    [quote "NIFTY" "NSE" 19850%float 19849%float 19851%float 100000 0;
     quote "NIFTY20000CE" "NSE" 1%float 0.5%float 1.5%float 400 9000;
     quote "NIFTY20000CE" "BSE" 2%float 1.5%float 2.5%float 300 7000].

(** The same call in the money at expiry, the index being at 20100, with
    two last prices one unit in the last place apart. *)
Definition expired_call_in_the_money : PricingEngine.t float :=
  updateMarketData (addContract new (nifty_call 0))
    [quote "NIFTY" "NSE" 20100%float 20099%float 20101%float 100000 0;
     quote "NIFTY20000CE" "NSE" 0x1.f400000000001p+8%float 500%float 501%float 400 9000;
     quote "NIFTY20000CE" "BSE" 0x1.f400000000002p+8%float 500%float 501%float 300 7000].

(** A cash contract registered before any quote of it has arrived. *)
Definition unquoted : PricingEngine.t float :=
  addContract new (cash "RELIANCE" "RELIANCE").

(** Two cash contracts of one underlying; only the first has quotes. *)
Definition one_quoted : PricingEngine.t float :=
  updateMarketData
    (addContract (addContract new (cash "NIFTYBEES" "NIFTY")) (cash "NIFTYETF" "NIFTY"))
    [quote "NIFTYBEES" "NSE" 100%float 99.5%float 100.5%float 3000 500000;
     quote "NIFTYBEES" "BSE" 101%float 100.5%float 101.5%float 1000 200000].

(** The same, with quotes for both. *)
Definition both_quoted : PricingEngine.t float :=
  updateMarketData one_quoted
    [quote "NIFTYETF" "NSE" 200%float 199.5%float 200.5%float 2000 100000;
     quote "NIFTYETF" "BSE" 200.5%float 200%float 201%float 2000 100000].

(** Four cash contracts of one underlying, of which the third has no
    quote: the others are at 0.99%, 2.91% and 1.96% from their fair
    values. *)
Definition three_quoted_of_four : PricingEngine.t float :=
  updateMarketData
    (addContract
       (addContract
          (addContract (addContract new (cash "NIFTYA" "NIFTY")) (cash "NIFTYB" "NIFTY"))
          (cash "NIFTYC" "NIFTY"))
       (cash "NIFTYD" "NIFTY"))
    [quote "NIFTYA" "NSE" 100%float 99.5%float 100.5%float 1000 100000;
     quote "NIFTYA" "BSE" 102%float 101.5%float 102.5%float 1000 100000;
     quote "NIFTYB" "NSE" 100%float 99.5%float 100.5%float 1000 100000;
     quote "NIFTYB" "BSE" 106%float 105.5%float 106.5%float 1000 100000;
     quote "NIFTYD" "NSE" 100%float 99.5%float 100.5%float 1000 100000;
     quote "NIFTYD" "BSE" 104%float 103.5%float 104.5%float 1000 100000].

(** An engine without volume history whose threshold was set to
    infinity. *)
Definition infinite_threshold : PricingEngine.t float :=
  setVolumeThreshold new infinity.

(** Two samples of volume, 1 and 2. *)
Definition two_samples : PricingEngine.t float :=
  appends new [("NIFTY", 1); ("NIFTY", 2)].

(** One sample of volume, 10000. *)
Definition average_10000 : PricingEngine.t float :=
  updateHistoricalVolume new "NIFTY" 10000.
End RunData.

(** A share quoted at 100 on NSE (3000 traded) and at 101 on BSE (1000
    traded), in exact arithmetic. *)
Definition exact_cash_market : PricingEngine.t R :=
  updateMarketData (addContract new (cash "RELIANCE" "RELIANCE"))
    [quote "RELIANCE" "NSE" 100%R 99%R 101%R 3000 0;
     quote "RELIANCE" "BSE" 101%R 100%R 102%R 1000 0].

(* ================================================================== *)
(** ** [MarginCalculator] *)

Module OptionContract.
Section Def.
Context {D : Type}.
Record t : Type := mk {
  contract : ContractDetails.t D;
  market_data : MarketData.t D;
  greeks : OptionGreeks.t D;
  implied_volatility : D;
  intrinsic_value : D;
  time_value : D
}.
End Def.
Arguments t : clear implicits.
End OptionContract.

Module MarginRequirement.
Section Def.
Context {D : Type}.
Record t : Type := mk {
  span_margin : D;
  exposure_margin : D;
  total_margin : D;
  calculation_method : string
}.
End Def.
Arguments t : clear implicits.
End MarginRequirement.

Section MarginCalculator.
Context {D : Type} {num : Double D}.
#[local] Open Scope double_scope.

Definition calculateSpanMargin (contract : OptionContract.t D) : D :=
  let underlying_price := of_Z 100 in
  let margin_rate := lit 10 100 in
  let details := OptionContract.contract contract in
  if String.eqb (ContractDetails.instrument_type details) "OPTION" then
    MarketData.price (OptionContract.market_data contract)
    + underlying_price * ContractDetails.lot_size details * margin_rate
  else if String.eqb (ContractDetails.instrument_type details) "FUTURE" then
    underlying_price * ContractDetails.lot_size details * margin_rate
  else of_Z 0.

Definition calculateExposureMargin (contract : OptionContract.t D) : D :=
  let underlying_price := of_Z 100 in
  let exposure_rate := lit 5 100 in
  underlying_price * ContractDetails.lot_size (OptionContract.contract contract)
  * exposure_rate.

(** The two running sums of [calculateMargin], then their total. *)
Definition calculateMargin (positions : list (OptionContract.t D))
    : MarginRequirement.t D :=
  let '(span_margin, exposure_margin) :=
    fold_left
      (fun sums position =>
         (fst sums + calculateSpanMargin position,
          snd sums + calculateExposureMargin position))
      positions (of_Z 0, of_Z 0) in
  {| MarginRequirement.span_margin := span_margin;
     MarginRequirement.exposure_margin := exposure_margin;
     MarginRequirement.total_margin := span_margin + exposure_margin;
     MarginRequirement.calculation_method := "SPAN" |}.
End MarginCalculator.

(* ================================================================== *)
(** ** Vocabulary of the further statements *)

(** The engines that the public member functions build from a new one. *)
Inductive reachable {D} `{Double D} : PricingEngine.t D -> Prop :=
| reachable_new : reachable new
| reachable_setRiskFreeRate this rate :
    reachable this -> reachable (setRiskFreeRate this rate)
| reachable_setVolumeThreshold this threshold :
    reachable this -> reachable (setVolumeThreshold this threshold)
| reachable_updateMarketData this data :
    reachable this -> reachable (updateMarketData this data)
| reachable_addContract this contract :
    reachable this -> reachable (addContract this contract)
| reachable_updateHistoricalVolume this symbol volume :
    reachable this -> reachable (updateHistoricalVolume this symbol volume).

(** The last quote of a batch for a symbol on a venue. *)
Definition last_quote {D} (symbol exchange : string) (data : list (MarketData.t D))
    : option (MarketData.t D) :=
  List.find
    (fun md => String.eqb (MarketData.symbol md) symbol
               && String.eqb (MarketData.exchange md) exchange)
    (rev data).

(** The volumes of the quotes of a batch for a symbol, whatever their
    venue, in order. *)
Definition volumes_of {D} (symbol : string) (data : list (MarketData.t D)) : list Z :=
  map MarketData.volume
    (filter (fun md => String.eqb (MarketData.symbol md) symbol) data).

(** The keys of a map are in strictly ascending order. *)
Definition ascending {V} (m : StdMap.t V) : Prop :=
  StronglySorted (fun a b => String.compare (fst a) (fst b) = Lt) m.


(** What a position adds to the total margin, in exact arithmetic. *)
Definition margin_of_position (position : OptionContract.t R) : R :=
  let details := OptionContract.contract position in
  let lot_size := ContractDetails.lot_size details in
  (if String.eqb (ContractDetails.instrument_type details) "OPTION"
   then MarketData.price (OptionContract.market_data position) + 15 * lot_size
   else if String.eqb (ContractDetails.instrument_type details) "FUTURE"
   then 15 * lot_size
   else 5 * lot_size)%R.

(* ================================================================== *)
(** ** Data of the further runs *)

Definition derivative {D} `{Double D} (symbol underlying instrument_type : string)
    (strike : D) (expiry : Z) (option_type : string) (lot_size : D)
    : ContractDetails.t D :=
  {| ContractDetails.symbol := symbol; ContractDetails.underlying := underlying;
     ContractDetails.instrument_type := instrument_type;
     ContractDetails.strike := strike; ContractDetails.expiry := expiry;
     ContractDetails.option_type := option_type;
     ContractDetails.lot_size := lot_size; ContractDetails.tick_size := lit 5 100 |}.


(** The index at 20100 on NSE, in exact arithmetic. *)
Definition exact_index_market : PricingEngine.t R :=
  updateMarketData new [quote "NIFTY" "NSE" 20100%R 20099%R 20101%R 100000 0].

(** A position in a contract last traded at [price]; the margin functions
    read nothing else of it. *)
Definition position {D} `{Double D} (contract : ContractDetails.t D) (price : D)
    : OptionContract.t D :=
  {| OptionContract.contract := contract;
     OptionContract.market_data :=
       quote (ContractDetails.symbol contract) "NSE" price price price 0 0;
     OptionContract.greeks :=
       {| OptionGreeks.delta := of_Z 0; OptionGreeks.gamma := of_Z 0;
          OptionGreeks.theta := of_Z 0; OptionGreeks.vega := of_Z 0;
          OptionGreeks.rho := of_Z 0 |};
     OptionContract.implied_volatility := of_Z 0;
     OptionContract.intrinsic_value := of_Z 0;
     OptionContract.time_value := of_Z 0 |}.

(* ================================================================== *)
(** ** Straight insertion meets the contract of [std::sort] *)

Section InsertionSort.
Context {A : Type} (comp : A -> A -> bool).

Lemma insert_sorted_perm x l : Permutation (x :: l) (insert_sorted comp x l).
Proof.
  induction l as [|y l IH]; simpl; [reflexivity|].
  destruct (comp x y); [reflexivity|].
  rewrite perm_swap. now constructor.
Qed.

Lemma insertion_sort_perm l : Permutation l (insertion_sort comp l).
Proof.
  unfold insertion_sort.
  enough (forall acc, Permutation (l ++ acc)
            (fold_left (fun acc x => insert_sorted comp x acc) l acc)) as E.
  { specialize (E []). now rewrite app_nil_r in E. }
  induction l as [|x l IH]; intro acc; simpl; [reflexivity|].
  rewrite <- IH, <- insert_sorted_perm. apply Permutation_middle.
Qed.

Lemma swo_asym l a b :
  strict_weak_ordering comp l -> In a l -> In b l ->
  comp a b = true -> comp b a = false.
Proof.
  intros O Ha Hb Hab. destruct (comp b a) eqn:Hba; [|reflexivity].
  rewrite <- (swo_irrefl _ _ O a Ha). symmetry.
  exact (swo_trans _ _ O a b a Ha Hb Ha Hab Hba).
Qed.

Lemma insert_sorted_sorted L x l :
  strict_weak_ordering comp L -> In x L -> incl l L ->
  sorted_wrt comp l -> sorted_wrt comp (insert_sorted comp x l).
Proof.
  intros O Hx. unfold sorted_wrt.
  induction l as [|y l IH]; intros Hl S; simpl.
  - repeat constructor.
  - assert (Hy : In y L) by (apply Hl; now left).
    assert (Hl' : incl l L) by (intros z Hz; apply Hl; now right).
    inversion S as [|? ? S' F]; subst.
    destruct (comp x y) eqn:Hxy.
    + constructor; [exact S|].
      constructor; [exact (swo_asym L x y O Hx Hy Hxy)|].
      rewrite Forall_forall in *. intros b Hb.
      destruct (comp b x) eqn:Hbx; [|reflexivity].
      rewrite <- (F b Hb). symmetry.
      exact (swo_trans _ _ O b x y (Hl' b Hb) Hx Hy Hbx Hxy).
    + constructor; [now apply IH|].
      rewrite Forall_forall in *. intros b Hb.
      apply (Permutation_in _ (Permutation_sym (insert_sorted_perm x l))) in Hb.
      destruct Hb as [<-|Hb]; [exact Hxy|now apply F].
Qed.

Lemma insertion_sort_sorted l :
  strict_weak_ordering comp l -> sorted_wrt comp (insertion_sort comp l).
Proof.
  intro O. unfold insertion_sort.
  enough (forall l' acc, incl l' l -> incl acc l -> sorted_wrt comp acc ->
            sorted_wrt comp
              (fold_left (fun acc x => insert_sorted comp x acc) l' acc)) as E.
  { apply E; [apply incl_refl|intros ? []|constructor]. }
  induction l' as [|x l' IH]; intros acc Hl Hacc S; simpl; [exact S|].
  apply IH.
  - intros z Hz. apply Hl. now right.
  - intros z Hz.
    apply (Permutation_in _ (Permutation_sym (insert_sorted_perm x acc))) in Hz.
    destruct Hz as [<-|Hz]; [apply Hl; now left|now apply Hacc].
  - apply (insert_sorted_sorted l); auto. apply Hl. now left.
Qed.
End InsertionSort.

Definition insertion : StdSort := {|
  std_sort := @insertion_sort;
  std_sort_spec := fun A comp l O =>
    conj (insertion_sort_perm comp l) (insertion_sort_sorted comp l O)
|}.

(* ================================================================== *)
(** ** The insertion pass of libstdc++ meets the contract of [std::sort] *)

Section LinearInsertion.
Context {A : Type} (comp : A -> A -> bool).

Lemma StronglySorted_snoc (R : A -> A -> Prop) (l : list A) (x : A) :
  StronglySorted R l -> Forall (fun a => R a x) l -> StronglySorted R (l ++ [x]).
Proof.
  induction 1 as [|a l S IH F]; intro H; simpl.
  - repeat constructor.
  - inversion H; subst. constructor; [now apply IH|].
    apply Forall_app. split; [exact F|now constructor].
Qed.

Lemma StronglySorted_rev (R : A -> A -> Prop) (l : list A) :
  StronglySorted R l -> StronglySorted (fun a b => R b a) (rev l).
Proof.
  induction 1 as [|a l S IH F]; simpl; [constructor|].
  apply StronglySorted_snoc; [exact IH|]. now apply Forall_rev.
Qed.

(** In a strict weak ordering, an element that is before another is before
    or after every third one. *)
Lemma swo_between L a b c :
  strict_weak_ordering comp L -> In a L -> In b L -> In c L ->
  comp a c = true -> comp a b = false -> comp b c = false -> False.
Proof.
  intros O Ha Hb Hc Hac Hab Hbc.
  assert (Hba : comp b a = false).
  { destruct (comp b a) eqn:E; [|reflexivity].
    rewrite <- Hbc. symmetry. exact (swo_trans _ _ O b a c Hb Ha Hc E Hac). }
  assert (Hcb : comp c b = false).
  { destruct (comp c b) eqn:E; [|reflexivity].
    rewrite <- Hab. symmetry. exact (swo_trans _ _ O a c b Ha Hc Hb Hac E). }
  destruct (swo_equiv_trans _ _ O a b c Ha Hb Hc (conj Hab Hba) (conj Hbc Hcb))
    as [E _].
  congruence.
Qed.

Lemma unguarded_linear_insert_perm val before :
  Permutation (val :: before) (unguarded_linear_insert comp val before).
Proof.
  induction before as [|y l IH]; simpl; [reflexivity|].
  destruct (comp val y); [|reflexivity].
  rewrite perm_swap. now constructor.
Qed.

Lemma linear_insert_perm before val :
  Permutation (val :: before) (linear_insert comp before val).
Proof.
  unfold linear_insert. destruct (rev before) as [|first t] eqn:E.
  - apply (f_equal (@rev A)) in E. rewrite rev_involutive in E. now subst.
  - destruct (comp val first).
    + apply Permutation_cons_append.
    + apply unguarded_linear_insert_perm.
Qed.

Lemma libstdcxx_insertion_sort_perm l :
  Permutation l (libstdcxx_insertion_sort comp l).
Proof.
  unfold libstdcxx_insertion_sort. rewrite <- Permutation_rev.
  enough (forall acc, Permutation (l ++ acc) (fold_left (linear_insert comp) l acc)) as E.
  { specialize (E []). now rewrite app_nil_r in E. }
  induction l as [|x l IH]; intro acc; simpl; [reflexivity|].
  rewrite <- IH, <- linear_insert_perm. apply Permutation_middle.
Qed.

Lemma unguarded_linear_insert_descending L val before :
  strict_weak_ordering comp L -> In val L -> incl before L ->
  descending comp before -> descending comp (unguarded_linear_insert comp val before).
Proof.
  intros O Hv. unfold descending.
  induction before as [|y l IH]; intros Hl S; simpl.
  - repeat constructor.
  - assert (Hy : In y L) by (apply Hl; now left).
    assert (Hl' : incl l L) by (intros z Hz; apply Hl; now right).
    inversion S as [|? ? S' F]; subst.
    destruct (comp val y) eqn:Hvy.
    + constructor; [now apply IH|].
      rewrite Forall_forall in *. intros b Hb.
      apply (Permutation_in _ (Permutation_sym (unguarded_linear_insert_perm val l))) in Hb.
      destruct Hb as [<-|Hb]; [exact (swo_asym comp L val y O Hv Hy Hvy)|now apply F].
    + constructor; [exact S|].
      constructor; [exact Hvy|].
      rewrite Forall_forall in *. intros b Hb.
      destruct (comp val b) eqn:Hvb; [|reflexivity].
      exfalso. exact (swo_between L val y b O Hv Hy (Hl' b Hb) Hvb Hvy (F b Hb)).
Qed.

Lemma linear_insert_descending L val before :
  strict_weak_ordering comp L -> In val L -> incl before L ->
  descending comp before -> descending comp (linear_insert comp before val).
Proof.
  intros O Hv Hl S. unfold linear_insert.
  destruct (rev before) as [|first t] eqn:E.
  - repeat constructor.
  - destruct (comp val first) eqn:Hvf;
      [|now apply (unguarded_linear_insert_descending L)].
    apply StronglySorted_snoc; [exact S|].
    assert (R : StronglySorted (fun a b => comp b a = false) (first :: t))
      by (rewrite <- E; now apply StronglySorted_rev).
    inversion R as [|? ? _ F]; subst.
    assert (Hf : In first L).
    { apply Hl, in_rev. rewrite E. now left. }
    rewrite Forall_forall in *. intros a Ha.
    assert (Ha' : In a L) by now apply Hl.
    apply in_rev in Ha. rewrite E in Ha.
    destruct (comp a val) eqn:Hav; [|reflexivity].
    destruct Ha as [<-|Ha].
    + rewrite <- (swo_asym comp L val first O Hv Hf Hvf). now symmetry.
    + rewrite <- (F a Ha). symmetry.
      exact (swo_trans _ _ O a val first Ha' Hv Hf Hav Hvf).
Qed.

Lemma libstdcxx_insertion_sort_sorted l :
  strict_weak_ordering comp l -> sorted_wrt comp (libstdcxx_insertion_sort comp l).
Proof.
  intro O. unfold libstdcxx_insertion_sort, sorted_wrt.
  apply (StronglySorted_rev (fun a b => comp a b = false)).
  enough (forall l' acc, incl l' l -> incl acc l -> descending comp acc ->
            descending comp (fold_left (linear_insert comp) l' acc)) as E.
  { apply E; [apply incl_refl|intros ? []|constructor]. }
  induction l' as [|x l' IH]; intros acc Hl Hacc S; simpl; [exact S|].
  apply IH.
  - intros z Hz. apply Hl. now right.
  - intros z Hz.
    apply (Permutation_in _ (Permutation_sym (linear_insert_perm acc x))) in Hz.
    destruct Hz as [<-|Hz]; [apply Hl; now left|now apply Hacc].
  - apply (linear_insert_descending l); auto. apply Hl. now left.
Qed.
End LinearInsertion.

Definition libstdcxx : StdSort := {|
  std_sort := @libstdcxx_insertion_sort;
  std_sort_spec := fun A comp l O =>
    conj (libstdcxx_insertion_sort_perm comp l) (libstdcxx_insertion_sort_sorted comp l O)
|}.

(* ================================================================== *)
(** ** Facts on maps, lists and the history *)

Section MapFacts.
Context {V : Type}.

Lemma find_insert_eq (k : string) (v : V) m :
  StdMap.find k (StdMap.insert k v m) = Some v.
Proof.
  induction m as [|[k' v'] m IH]; simpl.
  - now rewrite String.eqb_refl.
  - destruct (String.compare k k') eqn:E; simpl.
    + now rewrite String.eqb_refl.
    + now rewrite String.eqb_refl.
    + destruct (String.eqb_spec k k') as [->|_]; [|exact IH].
      pose proof (String.compare_antisym k' k') as R. rewrite E in R. discriminate.
Qed.

Lemma find_insert_ne (k k' : string) (v : V) m :
  k' <> k -> StdMap.find k' (StdMap.insert k v m) = StdMap.find k' m.
Proof.
  intro N. induction m as [|[k0 v0] m IH]; simpl.
  - destruct (String.eqb_spec k' k); [contradiction|reflexivity].
  - destruct (String.compare k k0) eqn:E; simpl.
    + apply String.compare_eq_iff in E. subst k0.
      destruct (String.eqb_spec k' k); [contradiction|reflexivity].
    + destruct (String.eqb_spec k' k); [contradiction|reflexivity].
    + now rewrite IH.
Qed.
End MapFacts.

Section ListFacts.
Context {A : Type}.

Lemma last_n_length n (l : list A) : (List.length (last_n n l) <= n)%nat.
Proof. unfold last_n. rewrite length_skipn. lia. Qed.

Lemma last_n_short n (l : list A) : (List.length l <= n)%nat -> last_n n l = l.
Proof.
  intro H. unfold last_n. now replace (List.length l - n)%nat with 0%nat by lia.
Qed.

Lemma last_n_app n (a b : list A) : last_n n (last_n n a ++ b) = last_n n (a ++ b).
Proof.
  unfold last_n. set (k := (List.length a - n)%nat).
  rewrite !length_app, length_skipn. fold k.
  replace (List.length a + List.length b - n)%nat
    with ((List.length a - k + List.length b - n) + k)%nat by lia.
  rewrite <- skipn_skipn, (skipn_app k).
  now replace (k - List.length a)%nat with 0%nat by lia.
Qed.

Lemma last_n_snoc n (l : list A) x :
  (List.length l <= n)%nat ->
  (if (n <? List.length (l ++ [x]))%nat then tl (l ++ [x]) else l ++ [x])
  = last_n n (l ++ [x]).
Proof.
  intro H. unfold last_n. rewrite length_app. simpl.
  destruct (Nat.ltb_spec n (List.length l + 1)).
  - replace (List.length l + 1 - n)%nat with 1%nat by lia. reflexivity.
  - replace (List.length l + 1 - n)%nat with 0%nat by lia. reflexivity.
Qed.

Lemma StronglySorted_nth_error (R : A -> A -> Prop) (l : list A) :
  StronglySorted R l ->
  forall i j a b, (i < j)%nat ->
    nth_error l i = Some a -> nth_error l j = Some b -> R a b.
Proof.
  induction 1 as [|x l S IH F]; intros i j a b Hij Hi Hj.
  - destruct i; discriminate.
  - destruct j as [|j]; [lia|]. simpl in Hj. destruct i as [|i]; simpl in Hi.
    + injection Hi as <-. rewrite Forall_forall in F. apply F.
      now apply nth_error_In with j.
    + apply (IH i j); [lia|assumption|assumption].
Qed.
End ListFacts.

Section History.
Context {D : Type}.
Implicit Types this : PricingEngine.t D.

Lemma history_update_same this symbol volume :
  history (updateHistoricalVolume this symbol volume) symbol
  = let volumes := history this symbol ++ [volume] in
    if (30 <? List.length volumes)%nat then tl volumes else volumes.
Proof. unfold history, updateHistoricalVolume. simpl. now rewrite find_insert_eq. Qed.

Lemma history_update_other this symbol symbol' volume :
  symbol' <> symbol ->
  history (updateHistoricalVolume this symbol volume) symbol' = history this symbol'.
Proof.
  intro N. unfold history, updateHistoricalVolume. simpl.
  now rewrite find_insert_ne.
Qed.

Lemma history_appends ops : forall this symbol,
  (List.length (history this symbol) <= 30)%nat ->
  history (appends this ops) symbol
  = last_n 30 (history this symbol ++ appended symbol ops).
Proof.
  induction ops as [|[s v] ops IH]; intros this symbol H; simpl.
  - unfold appended. simpl. rewrite app_nil_r. symmetry. now apply last_n_short.
  - unfold appends in *. simpl. unfold appended. simpl.
    destruct (String.eqb_spec s symbol) as [->|N].
    + rewrite IH; rewrite history_update_same; cbv zeta; rewrite last_n_snoc by exact H.
      * simpl. rewrite last_n_app. fold (appended symbol ops).
        now rewrite <- app_assoc.
      * apply last_n_length.
    + rewrite IH; rewrite history_update_other by congruence; [reflexivity|exact H].
Qed.

(** [updateMarketData] appends to the histories what the run of
    [updateHistoricalVolume] calls on the volumes of its quotes does. *)
Lemma updateMarketData_history (data : list (MarketData.t D)) : forall this this',
  PricingEngine.historical_volumes_ this = PricingEngine.historical_volumes_ this' ->
  PricingEngine.historical_volumes_ (updateMarketData this data)
  = PricingEngine.historical_volumes_
      (appends this' (map (fun md => (MarketData.symbol md, MarketData.volume md)) data)).
Proof.
  induction data as [|md data IH]; intros this this' E; [exact E|].
  apply IH. unfold updateHistoricalVolume, store_quote. simpl. now rewrite E.
Qed.

Lemma get30DayAverageVolume_history this symbol :
  get30DayAverageVolume this symbol
  = match history this symbol with
    | [] => 0
    | volumes => accumulate volumes / Z.of_nat (List.length volumes)
    end.
Proof.
  unfold get30DayAverageVolume, history.
  now destruct (StdMap.find symbol (PricingEngine.historical_volumes_ this)) as [[|]|].
Qed.

Lemma accumulate_total volumes : accumulate volumes = wrap64 (total volumes).
Proof.
  unfold accumulate.
  enough (forall acc, fold_left (fun acc v => wrap64 (acc + v)) volumes (wrap64 acc)
                      = wrap64 (acc + total volumes)) as E.
  { exact (E 0). }
  induction volumes as [|v volumes IH]; intro acc; simpl.
  - now rewrite Z.add_0_r.
  - replace (wrap64 (wrap64 acc + v)) with (wrap64 (acc + v))
      by (unfold wrap64; now rewrite Zplus_mod_idemp_l).
    rewrite IH. f_equal. lia.
Qed.
End History.

(* ================================================================== *)
(** ** Facts on binary64

    The order of IEEE 754 on the specification of the format
    ([spec_float]), then on the primitive floats through the
    specification of their operations. *)

Module SF.
Ltac cases :=
  repeat match goal with
  | H : context [Z.compare ?x ?y] |- _ => destruct (Z.compare_spec x y)
  | |- context [Z.compare ?x ?y] => destruct (Z.compare_spec x y)
  | H : context [Pos.compare_cont Eq ?x ?y] |- _ =>
      change (Pos.compare_cont Eq x y) with (Pos.compare x y) in H;
      destruct (Pos.compare_spec x y)
  | |- context [Pos.compare_cont Eq ?x ?y] =>
      change (Pos.compare_cont Eq x y) with (Pos.compare x y);
      destruct (Pos.compare_spec x y)
  end.

Ltac crush :=
  intros;
  repeat match goal with x : spec_float |- _ => destruct x as [[]|[]| |[] ? ?] end;
  simpl in *; try congruence; cases; simpl in *; subst;
  try congruence; try lia.

(** Comparison of two numbers answers, and with the opposite when the
    arguments are exchanged. *)
Lemma compare_antisym a b :
  SFcompare b a = option_map CompOpp (SFcompare a b).
Proof. crush. Qed.

Lemma compare_refl a : a <> S754_nan -> SFcompare a a = Some Eq.
Proof. crush. Qed.

Lemma compare_nan a b :
  SFcompare a b = None <-> a = S754_nan \/ b = S754_nan.
Proof.
  destruct a as [[]|[]| |[] ? ?], b as [[]|[]| |[] ? ?]; simpl;
    (split; [try discriminate; auto | intros [?|?]; try discriminate; auto]).
Qed.

Lemma lt_trans a b c :
  SFcompare a b = Some Lt -> SFcompare b c = Some Lt -> SFcompare a c = Some Lt.
Proof. crush. Qed.

Lemma le_trans a b c :
  SFleb a b = true -> SFleb b c = true -> SFleb a c = true.
Proof. unfold SFleb. crush. Qed.

Lemma eq_trans a b c :
  SFcompare a b = Some Eq -> SFcompare b c = Some Eq -> SFcompare a c = Some Eq.
Proof. crush. Qed.

Lemma abs_eq a b :
  SFcompare (SFabs a) (SFabs b) = Some Eq -> SFabs a = SFabs b.
Proof.
  destruct a as [?|?| |? ? ?], b as [?|?| |? ? ?]; simpl; try discriminate;
    try reflexivity.
  destruct (Z.compare_spec e e0); try discriminate.
  change (Pos.compare_cont Eq m m0) with (Pos.compare m m0).
  destruct (Pos.compare_spec m m0); try discriminate. intros _. now subst.
Qed.

Lemma compare_some a b :
  a <> S754_nan -> b <> S754_nan -> exists c, SFcompare a b = Some c.
Proof.
  intros Ha Hb. destruct (SFcompare a b) as [c|] eqn:E; [now exists c|].
  apply compare_nan in E. tauto.
Qed.
End SF.


Module F.
#[local] Open Scope float_scope.

Definition nonfinite (x : spec_float) : bool :=
  match x with S754_nan | S754_infinity _ => true | _ => false end.

Lemma is_nan_spec x : is_nan x = false <-> Prim2SF x <> S754_nan.
Proof.
  unfold is_nan. rewrite eqb_spec. unfold SFeqb. split.
  - intros H E. rewrite E in H. discriminate.
  - intro H. now rewrite SF.compare_refl.
Qed.

Lemma is_finite_spec x : is_finite x = negb (nonfinite (Prim2SF x)).
Proof.
  unfold is_finite, is_infinity, is_nan. rewrite !eqb_spec, abs_spec.
  change (Prim2SF infinity) with (S754_infinity false). unfold SFeqb.
  destruct (Prim2SF x) as [[]|[]| |[] ? ?] eqn:E; try reflexivity;
    rewrite SF.compare_refl by discriminate; reflexivity.
Qed.

(** The comparison of two doubles that are not NaN. *)
Lemma compare_total x y :
  is_nan x = false -> is_nan y = false ->
  exists c, SFcompare (Prim2SF x) (Prim2SF y) = Some c
            /\ SFcompare (Prim2SF y) (Prim2SF x) = Some (CompOpp c).
Proof.
  rewrite !is_nan_spec. intros Hx Hy.
  destruct (SF.compare_some _ _ Hx Hy) as [c E]. exists c. split; [exact E|].
  now rewrite SF.compare_antisym, E.
Qed.

Lemma ltb_irrefl x : (x <? x) = false.
Proof.
  rewrite ltb_spec. unfold SFltb.
  destruct (SFcompare (Prim2SF x) (Prim2SF x)) as [[]|] eqn:E; try reflexivity.
  pose proof (SF.compare_antisym (Prim2SF x) (Prim2SF x)) as A.
  rewrite E in A. discriminate.
Qed.

Lemma ltb_false_leb x y :
  is_nan x = false -> is_nan y = false -> (x <? y) = false -> (y <=? x) = true.
Proof.
  intros Hx Hy. destruct (compare_total x y Hx Hy) as (c & E & E').
  rewrite ltb_spec, leb_spec. unfold SFltb, SFleb. rewrite E, E'.
  now destruct c.
Qed.

Lemma ltb_leb_false x y : (x <? y) = true -> (y <=? x) = false.
Proof.
  rewrite ltb_spec, leb_spec. unfold SFltb, SFleb.
  rewrite (SF.compare_antisym (Prim2SF x) (Prim2SF y)).
  destruct (SFcompare (Prim2SF x) (Prim2SF y)) as [[]|]; simpl; congruence.
Qed.

Lemma ltb_trans x y z : (x <? y) = true -> (y <? z) = true -> (x <? z) = true.
Proof.
  rewrite !ltb_spec. unfold SFltb. intros A B.
  rewrite (SF.lt_trans (Prim2SF x) (Prim2SF y) (Prim2SF z)); [reflexivity| |].
  - destruct (SFcompare (Prim2SF x) (Prim2SF y)) as [[]|]; congruence.
  - destruct (SFcompare (Prim2SF y) (Prim2SF z)) as [[]|]; congruence.
Qed.

Lemma abs_nan x : is_nan (abs x) = false <-> is_nan x = false.
Proof. rewrite !is_nan_spec, abs_spec. now destruct (Prim2SF x). Qed.

Lemma equiv_compare x y :
  is_nan x = false -> is_nan y = false ->
  equiv PrimFloat.ltb x y <-> SFcompare (Prim2SF x) (Prim2SF y) = Some Eq.
Proof.
  intros Hx Hy. destruct (compare_total x y Hx Hy) as (c & E & E').
  unfold equiv. rewrite !ltb_spec. unfold SFltb. rewrite E, E'.
  destruct c; simpl; intuition congruence.
Qed.

Lemma equiv_trans x y z :
  is_nan x = false -> is_nan y = false -> is_nan z = false ->
  equiv PrimFloat.ltb x y -> equiv PrimFloat.ltb y z -> equiv PrimFloat.ltb x z.
Proof.
  intros Hx Hy Hz. rewrite !equiv_compare by assumption. apply SF.eq_trans.
Qed.
Lemma ltb_leb x y : (x <? y) = true -> (x <=? y) = true.
Proof.
  rewrite ltb_spec, leb_spec. unfold SFltb, SFleb.
  now destruct (SFcompare (Prim2SF x) (Prim2SF y)) as [[]|].
Qed.

Lemma leb_refl x : is_nan x = false -> (x <=? x) = true.
Proof.
  rewrite is_nan_spec, leb_spec. unfold SFleb. intro H.
  now rewrite SF.compare_refl.
Qed.

(** On doubles other than NaN, [std::max] is the maximum. *)
Lemma std_max_spec {libm : Libm} (a b : float) :
  is_nan a = false -> is_nan b = false ->
  (a <=? std_max a b) = true /\ (b <=? std_max a b) = true /\
  (std_max a b = a \/ std_max a b = b).
Proof.
  intros Ha Hb. unfold std_max. cbn [ltb binary64].
  destruct (a <? b) eqn:E.
  - split; [now apply ltb_leb|]. split; [now apply leb_refl|now right].
  - split; [now apply leb_refl|]. split; [now apply ltb_false_leb|now left].
Qed.

(** Two absolute values that compare equal are the same double. *)
Lemma abs_eqb_eq x y : (abs x =? abs y) = true -> abs x = abs y.
Proof.
  rewrite eqb_spec, !abs_spec. unfold SFeqb. intro H.
  apply Prim2SF_inj. rewrite !abs_spec. apply SF.abs_eq.
  now destruct (SFcompare (SFabs (Prim2SF x)) (SFabs (Prim2SF y))) as [[]|].
Qed.

Lemma eqb_leb x y : (x =? y) = true -> (x <=? y) = true.
Proof.
  rewrite eqb_spec, leb_spec. unfold SFeqb, SFleb.
  now destruct (SFcompare (Prim2SF x) (Prim2SF y)) as [[]|].
Qed.

(** Zero times a finite double is a zero, and the sign of a zero does not
    matter to a comparison. *)
Lemma mul_zero_finite x :
  is_finite x = true -> exists s, Prim2SF (float_of_Z 0 * x) = S754_zero s.
Proof.
  rewrite is_finite_spec, mul_spec.
  change (Prim2SF (float_of_Z 0)) with (S754_zero false).
  destruct (Prim2SF x) as [s|s| |s m e]; try discriminate; intros _;
    eexists; reflexivity.
Qed.

Lemma leb_zero q z s : Prim2SF z = S754_zero s -> (q <=? z) = (q <=? 0).
Proof.
  intro H. rewrite !leb_spec, H. change (Prim2SF 0) with (S754_zero false).
  unfold SFleb. now destruct (Prim2SF q) as [[]|[]| |[] ? ?].
Qed.

(** A division by zero is an infinity or NaN, and so is every product or
    quotient of which it is the first operand. *)
Lemma div_zero_nonfinite x s : nonfinite (SF64div x (S754_zero s)) = true.
Proof. now destruct x as [?|?| |? ? ?]. Qed.

Lemma mul_nonfinite x y : nonfinite x = true -> nonfinite (SF64mul x y) = true.
Proof. now destruct x as [?|?| |? ? ?], y as [?|?| |? ? ?]. Qed.

Lemma div_nonfinite x y : nonfinite x = true -> nonfinite (SF64div x y) = true.
Proof. now destruct x as [?|?| |? ? ?], y as [?|?| |? ? ?]. Qed.

(** The literals of the source, as [lit] builds them, are the doubles that
    the compiler reads. *)
Example literals_on_binary64 {libm : Libm} :
  lit 6 100 = 0x1.eb851eb851eb8p-5 /\ lit 5 100 = 0x1.999999999999ap-5 /\
  lit 4 10 = 0x1.999999999999ap-2 /\ lit 3 10 = 0x1.3333333333333p-2 /\
  lit 5 10 = 0.5 /\ lit 6 10 = 0x1.3333333333333p-1 /\
  lit 1 2 = 0.5 /\ lit 1 1000 = 0x1.0624dd2f1a9fcp-10 /\
  lit 15 100 = 0x1.3333333333333p-3 /\ lit 18 100 = 0x1.70a3d70a3d70ap-3 /\
  lit 16 100 = 0x1.47ae147ae147bp-3.
Proof. repeat split. Qed.
End F.

(* ================================================================== *)
(** ** Facts on the exact arithmetic *)

Section ExactFacts.
#[local] Open Scope R_scope.

Lemma Rerf_odd x : Rerf (- x) = - Rerf x.
Proof. unfold Rerf. replace (- x * - x) with (x * x) by ring. ring. Qed.

Lemma Rerf_0 : Rerf 0 = 0.
Proof. unfold Rerf. ring. Qed.

Lemma ltb_exact x y : ltb (D := R) x y = true <-> x < y.
Proof. cbn [ltb exact]. destruct (Rlt_dec x y); intuition discriminate. Qed.

Lemma leb_exact x y : leb (D := R) x y = true <-> x <= y.
Proof. cbn [leb exact]. destruct (Rle_dec x y); intuition discriminate. Qed.

Lemma std_max_exact (a b : R) : std_max a b = Rmax a b.
Proof.
  unfold std_max, Rmax. cbn [ltb exact].
  destruct (Rlt_dec a b), (Rle_dec a b); try reflexivity; lra.
Qed.

Lemma std_min_exact (a b : R) : std_min a b = Rmin a b.
Proof.
  unfold std_min, Rmin. cbn [ltb exact].
  destruct (Rlt_dec b a), (Rle_dec a b); try reflexivity; lra.
Qed.

(** [normalCDF (-x) = 1 - normalCDF x]: the error function is odd. *)
Lemma normalCDF_opp (x : R) : normalCDF (- x) = 1 - normalCDF x.
Proof.
  unfold normalCDF, lit. cbn [add mul div of_Z erf sqrt exact].
  replace (- x / R_sqrt.sqrt 2) with (- (x / R_sqrt.sqrt 2)) by (unfold Rdiv; ring).
  rewrite Rerf_odd. lra.
Qed.

Lemma normalCDF_0 : normalCDF 0 = 1 / 2.
Proof.
  unfold normalCDF, lit. cbn [add mul div of_Z erf sqrt exact].
  replace (0 / R_sqrt.sqrt 2) with 0 by (unfold Rdiv; ring).
  rewrite Rerf_0. lra.
Qed.

(** Relative deviations from a positive fair value compare as the
    distances do. *)
Lemma relative_deviation_lt (fv a b : R) :
  0 < fv -> (a / fv * 100 < b / fv * 100 <-> a < b).
Proof.
  intro P.
  assert (Q : 0 < / fv * 100)
    by (apply Rmult_lt_0_compat; [now apply Rinv_0_lt_compat|lra]).
  unfold Rdiv. rewrite !Rmult_assoc. split; intro H.
  - now apply Rmult_lt_reg_r with (/ fv * 100).
  - now apply Rmult_lt_compat_r.
Qed.
End ExactFacts.

(* ================================================================== *)
(** ** Facts on the comparison of the venues *)

Lemma compareContract_exchange {D} `{Double D} (this : PricingEngine.t D) (now : Z)
    (target_quantity : D) (contract : ContractDetails.t D) :
  PriceComparison.exchange (compareContract this now target_quantity contract)
  = if nse_is_closer this now contract then "NSE" else "BSE".
Proof.
  unfold compareContract, nse_is_closer.
  now destruct (ltb _ _).
Qed.

(** On doubles other than NaN, the comparator of [compareContracts] is a
    strict weak ordering. *)
Lemma by_abs_percentage_diff_ordering {libm : Libm}
    (l : list (PriceComparison.t float)) :
  (forall c, In c l -> is_nan (PriceComparison.percentage_diff c) = false) ->
  strict_weak_ordering by_abs_percentage_diff l.
Proof.
  intro N.
  assert (N' : forall c, In c l ->
                 is_nan (abs (PriceComparison.percentage_diff c)) = false).
  { intros c Hc. apply F.abs_nan. now apply N. }
  split; unfold by_abs_percentage_diff; cbn [ltb fabs binary64].
  - intros. apply F.ltb_irrefl.
  - intros a b c _ _ _. apply F.ltb_trans.
  - intros a b c Ha Hb Hc. unfold equiv. apply F.equiv_trans; now apply N'.
Qed.

(* ================================================================== *)
(** ** C1: expiry *)

(** C1. For every option input with time to expiry [T <= 0], the fair
    value ([blackScholes], [calculateOptionFairValue]) is the intrinsic
    value, [std::max(0, S - K)] for a call and [std::max(0, K - S)] for a
    put, and [calculateGreeks] returns delta = gamma = theta = vega = rho
    = 0.  In either arithmetic; [std_max] is the maximum of the reals
    ([std_max_exact]) and of the doubles other than NaN
    ([F.std_max_spec]). *)
Theorem expired_option_is_intrinsic_and_greeks_vanish :
  forall (D : Type) (num : Double D) (S K T r sigma : D) (option_type : string),
    (T <=? of_Z 0)%D = true ->
    blackScholes S K T r sigma true = std_max (of_Z 0) (S - K)%D /\
    blackScholes S K T r sigma false = std_max (of_Z 0) (K - S)%D /\
    calculateOptionFairValue S K T r sigma option_type
    = (if String.eqb option_type "CE"
       then std_max (of_Z 0) (S - K)%D
       else std_max (of_Z 0) (K - S)%D) /\
    calculateGreeks S K T r sigma option_type
    = {| OptionGreeks.delta := of_Z 0;
         OptionGreeks.gamma := of_Z 0;
         OptionGreeks.theta := of_Z 0;
         OptionGreeks.vega := of_Z 0;
         OptionGreeks.rho := of_Z 0 |}.
Proof.
  intros D num S K T r sigma option_type HT.
  unfold calculateGreeks, calculateDelta, calculateGamma, calculateTheta,
    calculateVega, calculateOptionFairValue, blackScholes.
  rewrite HT. repeat split.
Qed.

Section ExpiryRuns.
#[local] Existing Instance no_libm.

(** At expiry ([T = 0]) a call struck at 90 on a spot of 100 is worth 10 on
    binary64, the put is worth 0, and the Greeks are zero. *)
Lemma expired_option_witness :
  (0 <=? float_of_Z 0)%float = true /\
  calculateOptionFairValue 100%float 90%float 0%float 0.0625%float 0.125%float "CE"
  = 10%float /\
  calculateOptionFairValue 100%float 90%float 0%float 0.0625%float 0.125%float "PE"
  = 0%float /\
  calculateGreeks 100%float 90%float 0%float 0.0625%float 0.125%float "CE"
  = {| OptionGreeks.delta := 0%float; OptionGreeks.gamma := 0%float;
       OptionGreeks.theta := 0%float; OptionGreeks.vega := 0%float;
       OptionGreeks.rho := 0%float |}.
Proof.
  split; [reflexivity|].
  pose proof (expired_option_is_intrinsic_and_greeks_vanish float binary64
                100%float 90%float 0%float 0.0625%float 0.125%float) as E.
  destruct (E "CE" eq_refl) as (_ & _ & V & G).
  destruct (E "PE" eq_refl) as (_ & _ & V' & _).
  split; [exact V|]. split; [exact V'|exact G].
Defined.
End ExpiryRuns.

(* ================================================================== *)
(** ** C2: the selected venue *)

Section SelectionRuns.
#[local] Existing Instance no_libm.
#[local] Existing Instance libstdcxx.

(** C2 fails as stated: a day after its expiry the fair value of the call
    is 0, NSE at 1 is strictly closer to it than BSE at 2, and BSE is
    selected (both relative deviations are infinite). *)
Lemma farther_venue_selected_at_zero_fair_value :
  map (fun c => (PriceComparison.nse_price c, PriceComparison.bse_price c,
                 PriceComparison.fair_value c, PriceComparison.exchange c,
                 PriceComparison.current_volume c))
    (compareContracts expired_call (24 * ticks_per_hour) "NIFTY" 1%float)
  = [(1%float, 2%float, 0%float, "BSE", 300)] /\
  (abs (1 - 0) <? abs (2 - 0))%float = true.
Proof. split; reflexivity. Qed.

(** On binary64 a positive fair value does not restore the claim: against
    the fair value 100 of the call in the money, the distances of the two
    prices are 400.00000000000006 and 400.0000000000001, the two relative
    deviations round to the same double, and BSE is selected. *)
Example farther_venue_selected_by_rounding :
  map (fun c => (PriceComparison.fair_value c, PriceComparison.exchange c,
                 (abs (PriceComparison.nse_price c - PriceComparison.fair_value c)
                  <? abs (PriceComparison.bse_price c - PriceComparison.fair_value c))%float))
    (compareContracts expired_call_in_the_money (24 * ticks_per_hour) "NIFTY" 1%float)
  = [(100%float, "BSE", true)].
Proof. reflexivity. Qed.
End SelectionRuns.

(** C2, amended. For each contract of a [compareContracts] pass, NSE is
    selected when its relative deviation [|price - fairValue| / fairValue
    * 100] is strictly smaller than that of BSE, as the code computes
    them, and BSE otherwise; the signed percentage deviation, the current
    volume, the open interest, the liquidity score, the bid-ask spread and
    the impact cost of the comparison are computed from the quote of the
    selected venue.  In exact arithmetic and for a positive fair value, the
    selected venue is NSE exactly when its price has the strictly smaller
    [|price - fairValue|]. *)
Theorem comparison_is_of_the_selected_venue :
  forall (D : Type) (num : Double D) (this : PricingEngine.t D) (now : Z)
         (target_quantity : D) (contract : ContractDetails.t D)
         (exact_this : PricingEngine.t R) (exact_contract : ContractDetails.t R),
    let symbol := ContractDetails.symbol contract in
    let fair_value := calculateFairValue this now contract in
    let selected :=
      if nse_is_closer this now contract
      then getMarketData this now symbol "NSE"
      else getMarketData this now symbol "BSE" in
    let comparison := compareContract this now target_quantity contract in
    (PriceComparison.exchange comparison
     = if nse_is_closer this now contract then "NSE" else "BSE") /\
    PriceComparison.fair_value comparison = fair_value /\
    (PriceComparison.percentage_diff comparison
     = (MarketData.price selected - fair_value) / fair_value * of_Z 100)%D /\
    PriceComparison.current_volume comparison = MarketData.volume selected /\
    PriceComparison.open_interest comparison = MarketData.open_interest selected /\
    (PriceComparison.liquidity_score comparison
     = calculateLiquidityScore selected (get30DayAverageVolume this symbol)) /\
    (PriceComparison.bid_ask_spread comparison
     = (MarketData.ask selected - MarketData.bid selected)
       / MarketData.price selected * of_Z 100)%D /\
    PriceComparison.impact_cost comparison
    = calculateImpactCost selected target_quantity /\
    ((0 < calculateFairValue exact_this now exact_contract)%R ->
     (nse_is_closer exact_this now exact_contract = true <->
      (Rabs (MarketData.price
               (getMarketData exact_this now (ContractDetails.symbol exact_contract) "NSE")
             - calculateFairValue exact_this now exact_contract)
       < Rabs (MarketData.price
                 (getMarketData exact_this now (ContractDetails.symbol exact_contract) "BSE")
               - calculateFairValue exact_this now exact_contract))%R)).
Proof.
  intros D num this now target_quantity contract exact_this exact_contract.
  cbv zeta.
  repeat match goal with |- _ /\ _ => split end;
    try (intro P; unfold nse_is_closer; rewrite ltb_exact;
         now apply relative_deviation_lt);
    unfold compareContract, nse_is_closer; now destruct (ltb _ _).
Qed.

(** In [exact_cash_market] the fair value is 100.25 and NSE, at 100, is
    the closer venue. *)
Lemma comparison_witness :
  (0 < calculateFairValue exact_cash_market 0 (cash "RELIANCE" "RELIANCE"))%R /\
  nse_is_closer exact_cash_market 0 (cash "RELIANCE" "RELIANCE") = true.
Proof.
  assert (V : calculateFairValue exact_cash_market 0 (cash "RELIANCE" "RELIANCE")
              = (401 / 4)%R).
  { unfold calculateFairValue. cbn.
    destruct (Rlt_dec 0 4000); lra. }
  assert (P : (0 < calculateFairValue exact_cash_market 0 (cash "RELIANCE" "RELIANCE"))%R)
    by (rewrite V; lra).
  split; [exact P|].
  apply (proj2 (proj2 (proj2 (proj2 (proj2 (proj2 (proj2 (proj2
           (comparison_is_of_the_selected_venue R exact exact_cash_market 0 1%R
              (cash "RELIANCE" "RELIANCE") exact_cash_market
              (cash "RELIANCE" "RELIANCE"))))))))) P).
  rewrite V. cbn [getMarketData]. cbn.
  unfold Rabs. repeat destruct (Rcase_abs _); lra.
Defined.

(* ================================================================== *)
(** ** C3: the ranking *)

(** A cash contract without a quote on either venue has the fair value
    [(0 + 0) / 2 = 0] and the deviation [(0 - 0) / 0 * 100], which is NaN:
    by the comparator of the sort it is neither before nor after any other
    comparison. *)
Lemma unquoted_cash_contract_has_NaN_deviation {libm : Libm}
    (this : PricingEngine.t float) (now : Z) (target_quantity : float)
    (contract : ContractDetails.t float) :
  ContractDetails.instrument_type contract = "CASH" ->
  StdMap.find (ContractDetails.symbol contract) (PricingEngine.nse_market_data_ this)
  = None ->
  StdMap.find (ContractDetails.symbol contract) (PricingEngine.bse_market_data_ this)
  = None ->
  calculateFairValue this now contract = 0%float /\
  is_nan (PriceComparison.percentage_diff
            (compareContract this now target_quantity contract)) = true /\
  forall other : PriceComparison.t float,
    by_abs_percentage_diff (compareContract this now target_quantity contract) other
    = false /\
    by_abs_percentage_diff other (compareContract this now target_quantity contract)
    = false.
Proof.
  intros T N B.
  assert (V : calculateFairValue this now contract = 0%float).
  { unfold calculateFairValue, getMarketData. rewrite T, N, B. reflexivity. }
  assert (P : PriceComparison.percentage_diff
                (compareContract this now target_quantity contract) = nan).
  { unfold compareContract. rewrite V. unfold getMarketData. rewrite N, B.
    reflexivity. }
  split; [exact V|]. rewrite P. split; [reflexivity|].
  intro other. unfold by_abs_percentage_diff. rewrite P. cbn [ltb fabs binary64].
  rewrite !ltb_spec, !abs_spec. change (Prim2SF nan) with S754_nan.
  split; [reflexivity|].
  unfold SFltb.
  now destruct (Prim2SF (PriceComparison.percentage_diff other)) as [[]|[]| |[] ? ?].
Qed.

Section RankingRuns.
#[local] Existing Instance no_libm.
#[local] Existing Instance libstdcxx.

(** Of two contracts, the one without quotes has the deviation NaN; the
    entry before it is not at most it (no double is at most NaN, and NaN is
    at most none, so no arrangement of the two entries is ascending). *)
Lemma ranking_with_NaN_is_not_ascending :
  map PriceComparison.symbol (compareContracts one_quoted 0 "NIFTY" 1%float)
  = ["NIFTYBEES"; "NIFTYETF"] /\
  map (fun c => is_nan (PriceComparison.percentage_diff c))
    (compareContracts one_quoted 0 "NIFTY" 1%float)
  = [false; true] /\
  exists a b,
    nth_error (compareContracts one_quoted 0 "NIFTY" 1%float) 0 = Some a /\
    nth_error (compareContracts one_quoted 0 "NIFTY" 1%float) 1 = Some b /\
    (abs (PriceComparison.percentage_diff a)
     <=? abs (PriceComparison.percentage_diff b))%float = false /\
    (abs (PriceComparison.percentage_diff b)
     <=? abs (PriceComparison.percentage_diff a))%float = false.
Proof.
  split; [reflexivity|]. split; [reflexivity|].
  eexists. eexists. split; [reflexivity|]. split; [reflexivity|].
  split; reflexivity.
Qed.

(** C3. The sequence returned by [compareContracts] is not always in
    ascending order of absolute percentage deviation.  Of four cash
    contracts of one underlying, the third without quotes, the code
    divides by the fair value 0 of the third and gets the deviation NaN;
    the comparator handed to [std::sort] is then no strict weak ordering,
    and the pass of libstdc++ leaves the range as it was: the second
    entry, at 2.91%, precedes the fourth, at 1.96%, though both are
    quoted. *)
Theorem ranking_is_not_ascending_beside_an_unquoted_contract :
  calculateFairValue three_quoted_of_four 0 (cash "NIFTYC" "NIFTY") = 0%float /\
  map PriceComparison.symbol (compareContracts three_quoted_of_four 0 "NIFTY" 1%float)
  = ["NIFTYA"; "NIFTYB"; "NIFTYC"; "NIFTYD"] /\
  map (fun c => is_nan (PriceComparison.percentage_diff c))
    (compareContracts three_quoted_of_four 0 "NIFTY" 1%float)
  = [false; false; true; false] /\
  exists b d,
    nth_error (compareContracts three_quoted_of_four 0 "NIFTY" 1%float) 1 = Some b /\
    nth_error (compareContracts three_quoted_of_four 0 "NIFTY" 1%float) 3 = Some d /\
    PriceComparison.percentage_diff b = 0x1.74d0c6d5bf60fp+1%float /\
    PriceComparison.percentage_diff d = 0x1.f5f5f5f5f5f5fp+0%float /\
    (abs (PriceComparison.percentage_diff d)
     <? abs (PriceComparison.percentage_diff b))%float = true /\
    (abs (PriceComparison.percentage_diff b)
     <=? abs (PriceComparison.percentage_diff d))%float = false.
Proof.
  split; [reflexivity|]. split; [reflexivity|]. split; [reflexivity|].
  eexists. eexists. split; [reflexivity|]. split; [reflexivity|].
  repeat split; reflexivity.
Qed.
End RankingRuns.

(** The order fails through NaN alone: when no contract of the underlying
    has a NaN percentage deviation, the comparator is a strict weak
    ordering and the sequence returned by [compareContracts] is in
    ascending order of absolute percentage deviation, whatever the sort. *)
Theorem compareContracts_ascending_without_NaN :
  forall (libm : Libm) (sorter : StdSort) (this : PricingEngine.t float) (now : Z)
         (underlying : string) (target_quantity : float),
    (forall contract, In contract (getContracts this underlying) ->
       is_nan (PriceComparison.percentage_diff
                 (compareContract this now target_quantity contract)) = false) ->
    forall (i j : nat) (a b : PriceComparison.t float),
      (i < j)%nat ->
      nth_error (compareContracts this now underlying target_quantity) i = Some a ->
      nth_error (compareContracts this now underlying target_quantity) j = Some b ->
      (abs (PriceComparison.percentage_diff a)
       <=? abs (PriceComparison.percentage_diff b))%float = true.
Proof.
  intros libm sorter this now underlying target_quantity N i j a b Hij Ha Hb.
  unfold compareContracts in Ha, Hb.
  set (comparisons := map (compareContract this now target_quantity)
                        (getContracts this underlying)) in *.
  assert (N' : forall c, In c comparisons ->
                 is_nan (PriceComparison.percentage_diff c) = false).
  { intros c Hc. apply in_map_iff in Hc. destruct Hc as (contract & <- & Hc).
    now apply N. }
  destruct (std_sort_spec _ by_abs_percentage_diff comparisons
              (by_abs_percentage_diff_ordering comparisons N')) as [P S].
  pose proof (StronglySorted_nth_error _ _ S i j a b Hij Ha Hb) as L.
  unfold by_abs_percentage_diff in L. cbn [ltb fabs binary64] in L.
  apply F.ltb_false_leb; [| |exact L]; apply F.abs_nan, N';
    apply (Permutation_in _ (Permutation_sym P)); eapply nth_error_In; eassumption.
Qed.

Section RankingWitness.
#[local] Existing Instance no_libm.
#[local] Existing Instance libstdcxx.

(** With quotes for both contracts the ranking is ascending: NIFTYETF, a
    tie resolved to BSE at +0.12%, before NIFTYBEES at -0.25%. *)
Lemma compareContracts_ascending_witness :
  (forall contract, In contract (getContracts both_quoted "NIFTY") ->
     is_nan (PriceComparison.percentage_diff
               (compareContract both_quoted 0 1%float contract)) = false) /\
  map PriceComparison.symbol (compareContracts both_quoted 0 "NIFTY" 1%float)
  = ["NIFTYETF"; "NIFTYBEES"] /\
  (forall a b,
      nth_error (compareContracts both_quoted 0 "NIFTY" 1%float) 0 = Some a ->
      nth_error (compareContracts both_quoted 0 "NIFTY" 1%float) 1 = Some b ->
      (abs (PriceComparison.percentage_diff a)
       <=? abs (PriceComparison.percentage_diff b))%float = true).
Proof.
  assert (N : forall contract, In contract (getContracts both_quoted "NIFTY") ->
                is_nan (PriceComparison.percentage_diff
                          (compareContract both_quoted 0 1%float contract)) = false).
  { intros contract [<-|[<-|[]]]; reflexivity. }
  split; [exact N|]. split; [reflexivity|].
  intros a b.
  apply (compareContracts_ascending_without_NaN no_libm libstdcxx both_quoted 0
           "NIFTY" 1%float N 0 1 a b).
  lia.
Defined.
End RankingWitness.

(* ================================================================== *)
(** ** C4: the liquidity score *)

Section LiquidityRuns.
#[local] Existing Instance no_libm.

(** C4 fails as stated: the example quote (open interest 500000, a spread
    of 2%) scores 0 against an average volume of 0, where the formula of
    the claim gives 0.3 * 0.5 + 0.3 * (1/3) = 0.25. *)
Lemma liquidity_score_without_history_is_zero :
  calculateLiquidityScore (example_quote (D := float)) 0 = 0%float /\
  (lit 3 10 * std_min 1 (500000 / 1000000) + lit 3 10 * (1 / (1 + (101 - 99) / 100 * 100))
   = 0.25)%float.
Proof. split; reflexivity. Qed.

(** The example of the specification on binary64: one unit in the last
    place below 0.45. *)
Example liquidity_score_045_on_binary64 :
  calculateLiquidityScore (example_quote (D := float)) 10000
  = 0x1.cccccccccccccp-2%float.
Proof. reflexivity. Qed.
End LiquidityRuns.

(** C4, amended. Against a 30-day average volume other than 0,
    [calculateLiquidityScore] returns
    [volumeRatio * 0.4 + oiFactor * 0.3 + spreadFactor * 0.3] with
    [volumeRatio = volume / average], [oiFactor = min(1, openInterest /
    1000000)] and [spreadFactor = 1 / (1 + (ask - bid) / price * 100)], in
    doubles as in exact arithmetic; against an average of 0 it returns 0. *)
Theorem liquidity_score :
  forall (D : Type) (num : Double D) (data : MarketData.t D)
         (exact_data : MarketData.t R) (volume_30day : Z),
    calculateLiquidityScore data 0 = of_Z 0 /\
    (volume_30day <> 0 ->
     calculateLiquidityScore data volume_30day
     = (of_Z (MarketData.volume data) / of_Z volume_30day * lit 4 10
        + std_min (of_Z 1) (of_Z (MarketData.open_interest data) / of_Z 1000000)
          * lit 3 10
        + of_Z 1
          / (of_Z 1
             + (MarketData.ask data - MarketData.bid data) / MarketData.price data
               * of_Z 100)
          * lit 3 10)%D) /\
    (volume_30day <> 0 ->
     calculateLiquidityScore exact_data volume_30day
     = (0.4 * (IZR (MarketData.volume exact_data) / IZR volume_30day)
        + 0.3 * Rmin 1 (IZR (MarketData.open_interest exact_data) / 1000000)
        + 0.3 * (1 / (1 + (MarketData.ask exact_data - MarketData.bid exact_data)
                          / MarketData.price exact_data * 100)))%R).
Proof.
  intros D num data exact_data volume_30day. split; [reflexivity|].
  unfold calculateLiquidityScore.
  split; intro N; apply Z.eqb_neq in N; rewrite N; [reflexivity|].
  rewrite std_min_exact. unfold lit. cbn [add sub mul div of_Z exact]. lra.
Qed.

(** The example of the specification in exact arithmetic: volume 5000
    against an average of 10000, open interest 500000, price 100 between
    99 and 101; the score is 0.45. *)
Lemma liquidity_score_witness :
  10000 <> 0 /\
  calculateLiquidityScore (example_quote (D := R)) 10000 = (45 / 100)%R.
Proof.
  assert (N : 10000 <> 0) by discriminate. split; [exact N|].
  rewrite (proj2 (proj2 (liquidity_score R exact example_quote example_quote 10000)) N).
  cbn [MarketData.volume MarketData.open_interest MarketData.ask MarketData.bid
         MarketData.price example_quote quote of_Z exact].
  replace (500000 / 1000000)%R with (1 / 2)%R by lra.
  unfold Rmin. destruct (Rle_dec 1 (1 / 2)); lra.
Defined.

(* ================================================================== *)
(** ** C5: the impact cost *)

(** C5 does not hold of the code. [calculateImpactCost] divides by
    [data.volume] without a test: whenever the volume is 0 the result is
    an infinity or NaN, never a finite number. *)
Theorem impact_cost_of_zero_volume_is_not_finite :
  forall (libm : Libm) (data : MarketData.t float) (quantity : float),
    MarketData.volume data = 0 ->
    is_finite (calculateImpactCost data quantity) = false.
Proof.
  intros libm data quantity H. unfold calculateImpactCost. rewrite H.
  rewrite F.is_finite_spec. cbn [mul div sub of_Z binary64].
  rewrite mul_spec, div_spec, mul_spec, div_spec.
  change (Prim2SF (float_of_Z 0)) with (S754_zero false).
  rewrite F.mul_nonfinite; [reflexivity|].
  apply F.div_nonfinite, F.mul_nonfinite, F.div_zero_nonfinite.
Qed.

Section ImpactCostRuns.
#[local] Existing Instance no_libm.

(** The quote that [getMarketData] makes up for a symbol without data
    (all zero), with the default quantity 1: the impact cost is NaN.  A
    quote of 100 (99 bid, 101 ask) that has not traded: the impact cost is
    infinite. *)
Lemma impact_cost_witness :
  MarketData.volume (getMarketData unquoted 0 "RELIANCE" "NSE") = 0 /\
  is_finite (calculateImpactCost (getMarketData unquoted 0 "RELIANCE" "NSE") 1%float)
  = false /\
  is_nan (calculateImpactCost (getMarketData unquoted 0 "RELIANCE" "NSE") 1%float)
  = true /\
  calculateImpactCost (quote "NIFTY" "NSE" 100%float 99%float 101%float 0 0) 1%float
  = infinity.
Proof.
  split; [reflexivity|]. split; [|split; reflexivity].
  apply (impact_cost_of_zero_volume_is_not_finite no_libm). reflexivity.
Defined.
End ImpactCostRuns.

(* ================================================================== *)
(** ** C6: put-call parity *)

Section PutCallParity.
#[local] Open Scope R_scope.


End PutCallParity.

(* ================================================================== *)
(** ** C7: the window of 30 samples *)

(** C7. Whatever run of [updateHistoricalVolume] calls an engine goes
    through, the history of a symbol (of at most 30 samples before the
    run) is, after it, the last 30 of its samples in the order they were
    appended: it never holds more than 30, the oldest leave first, and the
    average is computed from those retained alone.  In particular after 31
    appends to a symbol that had none, the history is exactly the last 30
    of them. *)
Theorem volume_history_keeps_last_30 :
  forall (D : Type) (this : PricingEngine.t D) (ops : list (string * Z))
         (symbol : string),
    (List.length (history this symbol) <= 30)%nat ->
    let after := appends this ops in
    let all := history this symbol ++ appended symbol ops in
    (List.length (history after symbol) <= 30)%nat /\
    history after symbol = last_n 30 all /\
    get30DayAverageVolume after symbol
    = match last_n 30 all with
      | [] => 0
      | retained => accumulate retained / Z.of_nat (List.length retained)
      end /\
    (forall oldest rest,
        all = oldest :: rest -> List.length rest = 30%nat ->
        history after symbol = rest /\
        get30DayAverageVolume after symbol = accumulate rest / 30).
Proof.
  intros D this ops symbol H after all.
  assert (E : history after symbol = last_n 30 all) by now apply history_appends.
  repeat split.
  - rewrite E. apply last_n_length.
  - exact E.
  - now rewrite get30DayAverageVolume_history, E.
  - rewrite E, H0. unfold last_n. simpl. now rewrite H1.
  - assert (R : last_n 30 all = rest).
    { rewrite H0. unfold last_n. simpl. now rewrite H1. }
    rewrite get30DayAverageVolume_history, E, R.
    replace 30 with (Z.of_nat (List.length rest)) by now rewrite H1.
    destruct rest; [discriminate|reflexivity].
Qed.

Section WindowRuns.
#[local] Existing Instance no_libm.

(** The volumes 1, 2, ..., 31 appended to a fresh engine: 1 is gone,
    2..31 remain, and their average is 495 / 30 = 16. *)
Lemma volume_history_witness :
  (List.length (history (new (D := float)) "NIFTY") <= 30)%nat /\
  history (appends (new (D := float)) thirty_one_appends) "NIFTY"
  = map Z.of_nat (seq 2 30) /\
  get30DayAverageVolume (appends (new (D := float)) thirty_one_appends) "NIFTY" = 16.
Proof.
  assert (H : (List.length (history (new (D := float)) "NIFTY") <= 30)%nat)
    by (simpl; lia).
  split; [exact H|].
  destruct (volume_history_keeps_last_30 float new thirty_one_appends "NIFTY" H)
    as (_ & _ & _ & L).
  exact (L 1 (map Z.of_nat (seq 2 30)) eq_refl eq_refl).
Defined.
End WindowRuns.

(* ================================================================== *)
(** ** C8: the average *)

(** C8 fails as stated: with the history [1; 2] the function returns 1,
    and twice 1 is not 1 + 2: the quotient is an integer. *)
Lemma average_of_1_and_2_is_1 :
  history two_samples "NIFTY" = [1; 2] /\
  get30DayAverageVolume two_samples "NIFTY" = 1 /\
  get30DayAverageVolume two_samples "NIFTY" * 2 <> 1 + 2.
Proof. split; [reflexivity|]. split; [reflexivity|discriminate]. Qed.

(** C8, amended. [get30DayAverageVolume] returns the quotient, rounded
    down to an integer, of the sum of the stored samples (a [uint64_t] sum,
    hence modulo 2^64) by their number, and 0 when the symbol has no
    history or an empty one.  When the samples are non-negative and their
    sum is below 2^64, that is the arithmetic mean rounded down. *)
Theorem average_volume_is_the_mean_rounded_down :
  forall (D : Type) (this : PricingEngine.t D) (symbol : string),
    let volumes := history this symbol in
    let count := Z.of_nat (List.length volumes) in
    let average := get30DayAverageVolume this symbol in
    (StdMap.find symbol (PricingEngine.historical_volumes_ this) = None ->
     average = 0) /\
    (volumes = [] -> average = 0) /\
    (volumes <> [] -> average = (total volumes mod two64) / count) /\
    (volumes <> [] -> Forall (fun v => 0 <= v) volumes -> total volumes < two64 ->
     average * count <= total volumes < (average + 1) * count).
Proof.
  intros D this symbol. cbv zeta.
  split; [intro N; unfold get30DayAverageVolume; now rewrite N|].
  rewrite get30DayAverageVolume_history.
  assert (P : forall l, Forall (fun v => 0 <= v) l -> 0 <= total l).
  { induction 1; simpl; lia. }
  destruct (history this symbol) as [|v l].
  - repeat split; try reflexivity; intros; contradiction.
  - cbv beta iota zeta. rewrite accumulate_total. unfold wrap64.
    set (volumes := v :: l).
    assert (C : 0 < Z.of_nat (List.length volumes)) by (simpl List.length; lia).
    split; [discriminate|]. split; [reflexivity|].
    intros _ F B. rewrite Z.mod_small by (split; [now apply P|assumption]).
    rewrite !(Z.mul_comm _ (Z.of_nat (List.length volumes))).
    split; [now apply Z.mul_div_le|now apply Z.mul_succ_div_gt].
Qed.

(** The history [1; 2]: the average is the quotient of 3 by 2. *)
Lemma average_volume_witness :
  history two_samples "NIFTY" <> [] /\
  get30DayAverageVolume two_samples "NIFTY" = (1 + 2) / 2.
Proof.
  assert (N : history two_samples "NIFTY" <> []) by discriminate.
  split; [exact N|].
  exact (proj1 (proj2 (proj2 (average_volume_is_the_mean_rounded_down float
           two_samples "NIFTY"))) N).
Defined.

(* ================================================================== *)
(** ** C9: volume compliance *)

Section ThresholdRuns.
#[local] Existing Instance no_libm.

(** C9 fails as stated: with the threshold set to infinity and no volume
    history, the average is 0 and the product [0 * infinity] is NaN, so
    that the quantity 0 is refused, where the claim has it compliant. *)
Lemma infinite_threshold_refuses_quantity_zero :
  get30DayAverageVolume infinite_threshold "NIFTY" = 0 /\
  is_nan (float_of_Z (get30DayAverageVolume infinite_threshold "NIFTY")
          * PricingEngine.volume_threshold_ infinite_threshold)%float = true /\
  checkVolumeConstraints infinite_threshold "NIFTY" 0%float = false.
Proof. split; [reflexivity|]. split; reflexivity. Qed.
End ThresholdRuns.

(** C9, amended. [checkVolumeConstraints] answers whether [quantity] is
    at most the 30-day average volume times the volume threshold: on
    binary64 with the product rounded to a double, the average being the
    quotient, rounded down, of the sum of the stored samples (modulo 2^64)
    by their number; and as real numbers in exact arithmetic.  When the
    average is 0 and the threshold is a finite number, as the default 5%
    is, the answer is false for every positive quantity and true for the
    quantity 0. *)
Theorem volume_compliance :
  forall (libm : Libm) (this : PricingEngine.t float) (exact_this : PricingEngine.t R)
         (symbol : string) (quantity : float) (exact_quantity : R),
    (checkVolumeConstraints this symbol quantity
     = (quantity <=? float_of_Z (get30DayAverageVolume this symbol)
                     * PricingEngine.volume_threshold_ this)%float) /\
    (history this symbol <> [] ->
     checkVolumeConstraints this symbol quantity
     = (quantity
        <=? float_of_Z (total (history this symbol) mod two64
                        / Z.of_nat (List.length (history this symbol)))
            * PricingEngine.volume_threshold_ this)%float) /\
    (checkVolumeConstraints exact_this symbol exact_quantity = true
     <-> (exact_quantity <= IZR (get30DayAverageVolume exact_this symbol)
                            * PricingEngine.volume_threshold_ exact_this)%R) /\
    (get30DayAverageVolume this symbol = 0 ->
     is_finite (PricingEngine.volume_threshold_ this) = true ->
     ((0 <? quantity)%float = true ->
      checkVolumeConstraints this symbol quantity = false) /\
     ((quantity =? 0)%float = true ->
      checkVolumeConstraints this symbol quantity = true)) /\
    (get30DayAverageVolume exact_this symbol = 0 ->
     ((0 < exact_quantity)%R ->
      checkVolumeConstraints exact_this symbol exact_quantity = false) /\
     (exact_quantity = 0%R ->
      checkVolumeConstraints exact_this symbol exact_quantity = true)).
Proof.
  intros libm this exact_this symbol quantity exact_quantity.
  split; [reflexivity|]. split; [|split; [|split]].
  - intro N. unfold checkVolumeConstraints. cbv zeta.
    rewrite get30DayAverageVolume_history.
    destruct (history this symbol) as [|v l]; [contradiction|].
    cbv beta iota zeta. now rewrite accumulate_total.
  - unfold checkVolumeConstraints. cbn [leb mul of_Z exact].
    destruct (Rle_dec _ _); intuition discriminate.
  - intros A T. unfold checkVolumeConstraints. rewrite A. cbn [leb mul of_Z binary64].
    destruct (F.mul_zero_finite _ T) as [s Z0].
    rewrite (F.leb_zero _ _ _ Z0). split.
    + apply F.ltb_leb_false.
    + apply F.eqb_leb.
  - intro A. unfold checkVolumeConstraints. rewrite A. cbn [leb mul of_Z exact].
    destruct (Rle_dec _ _) as [L|L]; split; intros; try reflexivity; lra.
Qed.

Section VolumeComplianceRuns.
#[local] Existing Instance no_libm.

(** The example of the specification: one sample of 10000 and the default
    threshold admit 400 and refuse 600.  A fresh engine has the threshold
    0.05 and no history: one unit is not compliant. *)
Lemma volume_compliance_witness :
  history average_10000 "NIFTY" <> [] /\
  checkVolumeConstraints average_10000 "NIFTY" 400%float = true /\
  checkVolumeConstraints average_10000 "NIFTY" 600%float = false /\
  PricingEngine.volume_threshold_ (new (D := float)) = 0x1.999999999999ap-5%float /\
  get30DayAverageVolume (new (D := float)) "NIFTY" = 0 /\
  is_finite (PricingEngine.volume_threshold_ (new (D := float))) = true /\
  (0 <? 1)%float = true /\
  checkVolumeConstraints (new (D := float)) "NIFTY" 1%float = false.
Proof.
  assert (N : history average_10000 "NIFTY" <> []) by discriminate.
  split; [exact N|].
  split.
  { rewrite (proj1 (proj2 (volume_compliance no_libm average_10000 new "NIFTY"
                             400%float 1%R)) N).
    reflexivity. }
  split.
  { rewrite (proj1 (proj2 (volume_compliance no_libm average_10000 new "NIFTY"
                             600%float 1%R)) N).
    reflexivity. }
  split; [reflexivity|].
  split; [reflexivity|]. split; [reflexivity|]. split; [reflexivity|].
  exact (proj1 (proj1 (proj2 (proj2 (proj2
           (volume_compliance no_libm new new "NIFTY" 1%float 1%R))))
                  eq_refl eq_refl) eq_refl).
Defined.

(** The example of the specification, evaluated. *)
Example volume_compliance_400_600 :
  get30DayAverageVolume average_10000 "NIFTY" = 10000 /\
  checkVolumeConstraints average_10000 "NIFTY" 400%float = true /\
  checkVolumeConstraints average_10000 "NIFTY" 600%float = false.
Proof. repeat split. Qed.
End VolumeComplianceRuns.

(* ================================================================== *)
(** ** C10: ties *)

(** C10. When the two venues are equally far from the fair value (the
    two distances are the same double, be it NaN, or compare equal), and
    so when they quote the same price or when neither has a quote, BSE is
    selected; NSE is selected under the strict inequality of the test and
    not otherwise. *)
Theorem equidistant_venues_select_BSE :
  forall (libm : Libm) (this : PricingEngine.t float) (now : Z)
         (target_quantity : float) (contract : ContractDetails.t float),
    let symbol := ContractDetails.symbol contract in
    let nse_price := MarketData.price (getMarketData this now symbol "NSE") in
    let bse_price := MarketData.price (getMarketData this now symbol "BSE") in
    let fair_value := calculateFairValue this now contract in
    let selected :=
      PriceComparison.exchange (compareContract this now target_quantity contract) in
    (abs (nse_price - fair_value) = abs (bse_price - fair_value) ->
     selected = "BSE") /\
    ((abs (nse_price - fair_value) =? abs (bse_price - fair_value))%float = true ->
     selected = "BSE") /\
    (nse_price = bse_price -> selected = "BSE") /\
    (StdMap.find symbol (PricingEngine.nse_market_data_ this) = None ->
     StdMap.find symbol (PricingEngine.bse_market_data_ this) = None ->
     selected = "BSE") /\
    (selected = "NSE" <->
     (abs (nse_price - fair_value) / fair_value * 100
      <? abs (bse_price - fair_value) / fair_value * 100)%float = true) /\
    (selected = "NSE" \/ selected = "BSE").
Proof.
  intros libm this now target_quantity contract. cbv zeta.
  rewrite compareContract_exchange. unfold nse_is_closer.
  cbn [ltb mul div sub fabs of_Z binary64].
  change (float_of_Z 100) with 100%float.
  set (fv := calculateFairValue this now contract).
  set (p := MarketData.price (getMarketData this now _ "NSE")).
  set (q := MarketData.price (getMarketData this now _ "BSE")).
  assert (E : abs (p - fv) = abs (q - fv) ->
              (if (abs (p - fv) / fv * 100 <? abs (q - fv) / fv * 100)%float
               then "NSE" else "BSE") = "BSE").
  { intros ->. now rewrite F.ltb_irrefl. }
  split; [exact E|]. split; [intro P; now apply E, F.abs_eqb_eq|].
  split; [intro P; apply E; now rewrite P|].
  split; [|split].
  - intros A B. apply E. unfold p, q, getMarketData. now rewrite A, B.
  - destruct (_ <? _)%float; split; (reflexivity || discriminate).
  - destruct (_ <? _)%float; auto.
Qed.

Section TieRuns.
#[local] Existing Instance no_libm.

(** A contract registered before any quote of it has arrived: BSE. *)
Lemma equidistant_venues_witness :
  StdMap.find "RELIANCE" (PricingEngine.nse_market_data_ unquoted) = None /\
  StdMap.find "RELIANCE" (PricingEngine.bse_market_data_ unquoted) = None /\
  getContracts unquoted "RELIANCE" = [cash "RELIANCE" "RELIANCE"] /\
  PriceComparison.exchange
    (compareContract unquoted 0 1%float (cash "RELIANCE" "RELIANCE")) = "BSE".
Proof.
  split; [reflexivity|]. split; [reflexivity|]. split; [reflexivity|].
  exact (proj1 (proj2 (proj2 (proj2 (equidistant_venues_select_BSE no_libm
           unquoted 0 1%float (cash "RELIANCE" "RELIANCE"))))) eq_refl eq_refl).
Defined.
End TieRuns.

(* ================================================================== *)
(** ** Facts on the maps of a reachable engine *)

Section OrderedMap.
Context {V : Type}.
Implicit Types m : StdMap.t V.

Lemma compare_lt_trans (a b c : string) :
  String.compare a b = Lt -> String.compare b c = Lt -> String.compare a c = Lt.
Proof.
  intros H1 H2. apply OrderedTypeEx.String_as_OT.cmp_lt.
  apply OrderedTypeEx.String_as_OT.cmp_lt in H1, H2.
  exact (OrderedTypeEx.String_as_OT.lt_trans _ _ _ H1 H2).
Qed.

Lemma compare_gt_lt (a b : string) :
  String.compare a b = Gt -> String.compare b a = Lt.
Proof. intro H. rewrite String.compare_antisym, H. reflexivity. Qed.

Lemma compare_lt_neq (a b : string) : String.compare a b = Lt -> a <> b.
Proof.
  intros H ->. pose proof (String.compare_antisym b b) as R.
  rewrite H in R. discriminate.
Qed.

Lemma insert_Forall (P : string * V -> Prop) k v m :
  P (k, v) -> Forall P m -> Forall P (StdMap.insert k v m).
Proof.
  intros Hk. induction 1 as [|[k' v'] m Hp Hm IH]; simpl.
  - now constructor.
  - destruct (String.compare k k'); repeat constructor; assumption.
Qed.

Lemma insert_In k v m kv :
  In kv (StdMap.insert k v m) -> kv = (k, v) \/ In kv m.
Proof.
  induction m as [|[k' v'] m IH]; simpl.
  - intros [<-|[]]. now left.
  - destruct (String.compare k k'); simpl; intuition.
Qed.

Lemma insert_ascending k v m : ascending m -> ascending (StdMap.insert k v m).
Proof.
  unfold ascending. induction 1 as [|[k' v'] m S IH F]; simpl.
  - repeat constructor.
  - destruct (String.compare k k') eqn:E.
    + apply String.compare_eq_iff in E. subst k'. now constructor.
    + constructor; [now constructor|]. constructor; [exact E|].
      rewrite Forall_forall in *. intros kv Hkv. simpl.
      exact (compare_lt_trans _ _ _ E (F kv Hkv)).
    + constructor; [exact IH|]. rewrite Forall_forall in *. intros kv Hkv.
      apply insert_In in Hkv. destruct Hkv as [->|Hkv]; [|now apply F].
      simpl. now apply compare_gt_lt.
Qed.

(** In a map in ascending order an entry is found under its key, and
    nothing else is. *)
Lemma find_In k v m : ascending m -> (StdMap.find k m = Some v <-> In (k, v) m).
Proof.
  unfold ascending. induction 1 as [|[k' v'] m S IH F]; simpl.
  - split; [discriminate|contradiction].
  - destruct (String.eqb_spec k k') as [->|N].
    + split; [intros [= ->]; now left|].
      intros [[= ->]|H]; [reflexivity|].
      rewrite Forall_forall in F. apply F in H. simpl in H.
      now apply compare_lt_neq in H.
    + rewrite IH. split; [now right|]. intros [[= -> ->]|H]; [contradiction|exact H].
Qed.

(** The entries after [m[k] = v]: the new one, and the old ones under
    other keys. *)
Lemma In_insert k v m kv :
  ascending m ->
  (In kv (StdMap.insert k v m) <-> kv = (k, v) \/ (fst kv <> k /\ In kv m)).
Proof.
  intro A. destruct kv as [k0 v0]. rewrite <- !(find_In _ _ _ (insert_ascending k v m A)).
  simpl. destruct (String.eqb_spec k0 k) as [->|N].
  - rewrite find_insert_eq. split; [intros [= ->]; now left|].
    intros [[= ->]|[C _]]; [reflexivity|contradiction].
  - rewrite find_insert_ne by exact N. rewrite (find_In _ _ _ A).
    split; [now right|]. intros [[= -> ->]|[_ H]]; [contradiction|exact H].
Qed.
End OrderedMap.

Section Consistency.
Context {D : Type} {num : Double D}.
Implicit Types this : PricingEngine.t D.

(** What every reachable engine satisfies: the keys of its maps ascend, a
    quote is stored under its symbol in the map of its venue, a contract
    under its symbol, and a stored history has from 1 to 30 samples. *)
Record consistent this : Prop := {
  nse_ascending : ascending (PricingEngine.nse_market_data_ this);
  bse_ascending : ascending (PricingEngine.bse_market_data_ this);
  contracts_ascending : ascending (PricingEngine.contracts_ this);
  histories_ascending : ascending (PricingEngine.historical_volumes_ this);
  nse_keyed :
    Forall (fun kv => MarketData.symbol (snd kv) = fst kv
                      /\ MarketData.exchange (snd kv) = "NSE")
      (PricingEngine.nse_market_data_ this);
  bse_keyed :
    Forall (fun kv => MarketData.symbol (snd kv) = fst kv
                      /\ MarketData.exchange (snd kv) = "BSE")
      (PricingEngine.bse_market_data_ this);
  contracts_keyed :
    Forall (fun kv => ContractDetails.symbol (snd kv) = fst kv)
      (PricingEngine.contracts_ this);
  histories_bounded :
    Forall (fun kv => (1 <= List.length (snd kv) <= 30)%nat)
      (PricingEngine.historical_volumes_ this)
}.

Lemma consistent_updateHistoricalVolume this symbol volume :
  consistent this -> consistent (updateHistoricalVolume this symbol volume).
Proof.
  intros [A1 A2 A3 A4 K1 K2 K3 B]. split; simpl; try assumption.
  - now apply insert_ascending.
  - apply insert_Forall; [|exact B]. simpl.
    assert (L : (List.length
                   match StdMap.find symbol (PricingEngine.historical_volumes_ this) with
                   | Some vs => vs
                   | None => []
                   end <= 30)%nat).
    { destruct (StdMap.find _ _) as [vs|] eqn:E; [|simpl; lia].
      apply (find_In _ _ _ A4) in E. rewrite Forall_forall in B.
      apply B in E. simpl in E. lia. }
    rewrite last_n_snoc by exact L. unfold last_n.
    rewrite length_skipn, length_app. simpl. lia.
Qed.

Lemma consistent_store_quote this md :
  consistent this -> consistent (store_quote this md).
Proof.
  intros [A1 A2 A3 A4 K1 K2 K3 B]. unfold store_quote.
  split; simpl; try assumption;
    destruct (String.eqb_spec (MarketData.exchange md) "NSE") as [E|E];
    try assumption;
    try (destruct (String.eqb_spec (MarketData.exchange md) "BSE") as [E'|E'];
         try assumption);
    try (now apply insert_ascending);
    apply insert_Forall; auto.
Qed.

Lemma consistent_updateMarketData data : forall this,
  consistent this -> consistent (updateMarketData this data).
Proof.
  induction data as [|md data IH]; intros this C; [exact C|].
  apply IH, consistent_updateHistoricalVolume, consistent_store_quote, C.
Qed.

Lemma reachable_consistent this : reachable this -> consistent this.
Proof.
  induction 1 as [|this rate _ IH|this threshold _ IH|this data _ IH
                  |this contract _ IH|this symbol volume _ IH].
  - split; simpl; constructor.
  - destruct IH. now split.
  - destruct IH. now split.
  - now apply consistent_updateMarketData.
  - destruct IH as [A1 A2 A3 A4 K1 K2 K3 B]. split; simpl; try assumption.
    + now apply insert_ascending.
    + now apply insert_Forall.
  - now apply consistent_updateHistoricalVolume.
Qed.
End Consistency.

(* ================================================================== *)
(** ** Further properties: the market data store *)

Section StoreFacts.
Context {D : Type} {num : Double D}.
Implicit Types this : PricingEngine.t D.

Lemma updateMarketData_snoc this data md :
  updateMarketData this (data ++ [md])
  = updateHistoricalVolume (store_quote (updateMarketData this data) md)
      (MarketData.symbol md) (MarketData.volume md).
Proof. unfold updateMarketData. now rewrite fold_left_app. Qed.

Lemma last_quote_snoc symbol exchange (data : list (MarketData.t D)) md :
  last_quote symbol exchange (data ++ [md])
  = if String.eqb (MarketData.symbol md) symbol
       && String.eqb (MarketData.exchange md) exchange
    then Some md else last_quote symbol exchange data.
Proof. unfold last_quote. now rewrite rev_app_distr. Qed.

Lemma volumes_of_appended symbol (data : list (MarketData.t D)) :
  appended symbol (map (fun md => (MarketData.symbol md, MarketData.volume md)) data)
  = volumes_of symbol data.
Proof.
  unfold appended, volumes_of. induction data as [|md data IH]; [reflexivity|].
  simpl. destruct (String.eqb _ symbol); simpl; now rewrite IH.
Qed.
End StoreFacts.

(** X1. A batch of quotes is read back: after [updateMarketData], the
    quote of a symbol on NSE or on BSE is the last one the batch holds for
    that symbol and venue, and the quote the engine had before when the
    batch holds none. *)
Theorem quotes_are_read_back :
  forall (D : Type) (num : Double D) (this : PricingEngine.t D)
         (data : list (MarketData.t D)) (now : Z) (symbol exchange : string),
    exchange = "NSE" \/ exchange = "BSE" ->
    getMarketData (updateMarketData this data) now symbol exchange
    = match last_quote symbol exchange data with
      | Some md => md
      | None => getMarketData this now symbol exchange
      end.
Proof.
  intros D num this data now symbol exchange E.
  induction data as [|md data IH] using rev_ind; [reflexivity|].
  rewrite updateMarketData_snoc, last_quote_snoc.
  set (before := updateMarketData this data) in *.
  destruct (last_quote symbol exchange data) as [found|];
    unfold getMarketData, store_quote in *; simpl in *;
    destruct E as [-> | ->]; simpl in *;
    destruct (String.eqb_spec (MarketData.exchange md) "NSE") as [N|N];
    destruct (String.eqb_spec (MarketData.exchange md) "BSE") as [B|B];
    try congruence; rewrite ?andb_true_r, ?andb_false_r;
    try exact IH;
    (destruct (String.eqb_spec (MarketData.symbol md) symbol) as [<-|S];
     [now rewrite find_insert_eq
     |rewrite find_insert_ne by congruence; exact IH]).
Qed.

Section StoreRuns.
#[local] Existing Instance no_libm.

(** Two NSE quotes of one symbol in a batch: the second is read back. *)
Lemma quotes_are_read_back_witness :
  ("NSE" = "NSE" \/ "NSE" = "BSE") /\
  getMarketData
    (updateMarketData new
       [quote "NIFTYBEES" "NSE" 100%float 99.5%float 100.5%float 3000 500000;
        quote "NIFTYBEES" "BSE" 101%float 100.5%float 101.5%float 1000 200000;
        quote "NIFTYBEES" "NSE" 102%float 101.5%float 102.5%float 3500 500000])
    0 "NIFTYBEES" "NSE"
  = quote "NIFTYBEES" "NSE" 102%float 101.5%float 102.5%float 3500 500000.
Proof.
  split; [now left|].
  exact (quotes_are_read_back float binary64 new
           [quote "NIFTYBEES" "NSE" 100%float 99.5%float 100.5%float 3000 500000;
            quote "NIFTYBEES" "BSE" 101%float 100.5%float 101.5%float 1000 200000;
            quote "NIFTYBEES" "NSE" 102%float 101.5%float 102.5%float 3500 500000]
           0 "NIFTYBEES" "NSE" (or_introl eq_refl)).
Defined.
End StoreRuns.

(** X2. The window of volumes of a symbol is fed by every quote of the
    symbol, whatever its venue (NSE, BSE or any other string): after
    [updateMarketData] the history is the last 30 of the earlier history
    followed by the volumes of the quotes of the batch for that symbol. *)
Theorem every_quote_feeds_the_history :
  forall (D : Type) (this : PricingEngine.t D) (data : list (MarketData.t D))
         (symbol : string),
    (List.length (history this symbol) <= 30)%nat ->
    history (updateMarketData this data) symbol
    = last_n 30 (history this symbol ++ volumes_of symbol data).
Proof.
  intros D this data symbol H.
  unfold history at 1.
  rewrite (updateMarketData_history data this this eq_refl).
  fold (history
          (appends this
             (map (fun md => (MarketData.symbol md, MarketData.volume md)) data))
          symbol).
  rewrite history_appends by exact H. now rewrite volumes_of_appended.
Qed.

Section HistoryRuns.
#[local] Existing Instance no_libm.

(** The NSE and the BSE quote of one update both count, and so does a
    quote of a venue that the engine does not store. *)
Lemma every_quote_feeds_the_history_witness :
  (List.length (history (new (D := float)) "NIFTYBEES") <= 30)%nat /\
  history
    (updateMarketData new
       [quote "NIFTYBEES" "NSE" 100%float 99.5%float 100.5%float 3000 500000;
        quote "NIFTYBEES" "BSE" 101%float 100.5%float 101.5%float 1000 200000;
        quote "NIFTYBEES" "MCX" 102%float 101.5%float 102.5%float 7 0])
    "NIFTYBEES"
  = [3000; 1000; 7] /\
  getMarketData
    (updateMarketData new
       [quote "NIFTYBEES" "MCX" 102%float 101.5%float 102.5%float 7 0])
    0 "NIFTYBEES" "MCX"
  = quote "NIFTYBEES" "MCX" 0%float 0%float 0%float 0 0.
Proof.
  assert (H : (List.length (history (new (D := float)) "NIFTYBEES") <= 30)%nat)
    by (simpl; lia).
  split; [exact H|]. split; [|reflexivity].
  exact (every_quote_feeds_the_history float new
           [quote "NIFTYBEES" "NSE" 100%float 99.5%float 100.5%float 3000 500000;
            quote "NIFTYBEES" "BSE" 101%float 100.5%float 101.5%float 1000 200000;
            quote "NIFTYBEES" "MCX" 102%float 101.5%float 102.5%float 7 0]
           "NIFTYBEES" H).
Defined.
End HistoryRuns.

(** X3. On every engine that the public member functions build from a new
    one, [getMarketData] answers with a quote that carries the symbol and
    the venue it was asked for. *)
Theorem quotes_carry_their_symbol_and_venue :
  forall (D : Type) (num : Double D) (this : PricingEngine.t D) (now : Z)
         (symbol exchange : string),
    reachable this ->
    MarketData.symbol (getMarketData this now symbol exchange) = symbol /\
    MarketData.exchange (getMarketData this now symbol exchange) = exchange.
Proof.
  intros D num this now symbol exchange R.
  destruct (reachable_consistent this R) as [A1 A2 _ _ K1 K2 _ _].
  rewrite Forall_forall in K1, K2. unfold getMarketData.
  destruct (String.eqb_spec exchange "NSE") as [->|N].
  - destruct (StdMap.find symbol (PricingEngine.nse_market_data_ this)) as [md|] eqn:E.
    + apply (find_In _ _ _ A1) in E. exact (K1 _ E).
    + now split.
  - destruct (String.eqb_spec exchange "BSE") as [->|B]; [|now split].
    destruct (StdMap.find symbol (PricingEngine.bse_market_data_ this)) as [md|] eqn:E.
    + apply (find_In _ _ _ A2) in E. exact (K2 _ E).
    + now split.
Qed.

Section LabelRuns.
#[local] Existing Instance no_libm.

Lemma quotes_carry_their_symbol_and_venue_witness :
  reachable both_quoted /\
  MarketData.symbol (getMarketData both_quoted 0 "NIFTYETF" "BSE") = "NIFTYETF" /\
  MarketData.exchange (getMarketData both_quoted 0 "NIFTYETF" "BSE") = "BSE".
Proof.
  assert (R : reachable both_quoted) by (repeat constructor).
  split; [exact R|].
  exact (quotes_carry_their_symbol_and_venue float binary64 both_quoted 0
           "NIFTYETF" "BSE" R).
Defined.
End LabelRuns.

(* ================================================================== *)
(** ** Further properties: the volume histories *)

(** X4. On every engine that the public member functions build from a new
    one, a symbol has either no history or one of 1 to 30 samples: the
    window holds across [updateMarketData], [updateHistoricalVolume] and
    the other member functions in any order, and a stored history is never
    empty. *)
Theorem stored_histories_hold_1_to_30 :
  forall (D : Type) (num : Double D) (this : PricingEngine.t D) (symbol : string),
    reachable this ->
    (List.length (history this symbol) <= 30)%nat /\
    (forall volumes,
        StdMap.find symbol (PricingEngine.historical_volumes_ this) = Some volumes ->
        (1 <= List.length volumes <= 30)%nat).
Proof.
  intros D num this symbol R.
  destruct (reachable_consistent this R) as [_ _ _ A _ _ _ B].
  rewrite Forall_forall in B.
  assert (H : forall volumes,
             StdMap.find symbol (PricingEngine.historical_volumes_ this) = Some volumes ->
             (1 <= List.length volumes <= 30)%nat).
  { intros volumes E. apply (find_In _ _ _ A) in E. exact (B _ E). }
  split; [|exact H]. unfold history.
  destruct (StdMap.find symbol (PricingEngine.historical_volumes_ this)) as [vs|].
  - now apply H.
  - simpl. lia.
Qed.

Lemma reachable_appends {D} `{Double D} (ops : list (string * Z)) :
  forall this : PricingEngine.t D, reachable this -> reachable (appends this ops).
Proof.
  induction ops as [|op ops IH]; intros this R; [exact R|].
  apply IH. now constructor.
Qed.

Section WindowApiRuns.
#[local] Existing Instance no_libm.

Lemma stored_histories_witness :
  reachable (updateMarketData (appends new thirty_one_appends)
               [quote "NIFTY" "NSE" 100%float 99%float 101%float 32 0]) /\
  history (updateMarketData (appends new thirty_one_appends)
             [quote "NIFTY" "NSE" 100%float 99%float 101%float 32 0]) "NIFTY"
  = map Z.of_nat (seq 3 30) /\
  (List.length
     (history (updateMarketData (appends new thirty_one_appends)
                 [quote "NIFTY" "NSE" 100%float 99%float 101%float 32 0]) "NIFTY")
   <= 30)%nat.
Proof.
  assert (R : reachable (updateMarketData (appends new thirty_one_appends)
                           [quote "NIFTY" "NSE" 100%float 99%float 101%float 32 0])).
  { apply reachable_updateMarketData, reachable_appends, reachable_new. }
  split; [exact R|]. split; [vm_compute; reflexivity|].
  exact (proj1 (stored_histories_hold_1_to_30 float binary64 _ "NIFTY" R)).
Defined.
End WindowApiRuns.

(** X5. When the window of a symbol holds at most 30 samples, all between
    [lo] and [hi] with [0 <= lo] and [hi < 2^59], the sum does not wrap
    and the average lies between [lo] and [hi]. *)
Theorem average_is_between_the_samples :
  forall (D : Type) (this : PricingEngine.t D) (symbol : string) (lo hi : Z),
    history this symbol <> [] ->
    (List.length (history this symbol) <= 30)%nat ->
    0 <= lo -> hi < 2 ^ 59 ->
    Forall (fun v => lo <= v <= hi) (history this symbol) ->
    lo <= get30DayAverageVolume this symbol <= hi.
Proof.
  intros D this symbol lo hi N L Hlo Hhi F.
  rewrite get30DayAverageVolume_history.
  destruct (history this symbol) as [|v l] eqn:E; [contradiction|].
  cbv beta iota zeta. rewrite accumulate_total.
  set (volumes := v :: l) in *.
  assert (C : 0 < Z.of_nat (List.length volumes)) by (simpl List.length; lia).
  assert (T : Z.of_nat (List.length volumes) * lo <= total volumes
              <= Z.of_nat (List.length volumes) * hi).
  { clearbody volumes. clear -F. induction F as [|x xs Hx _ IH]; [simpl; lia|].
    change (total (x :: xs)) with (x + total xs).
    change (List.length (x :: xs)) with (S (List.length xs)). lia. }
  unfold wrap64. rewrite Z.mod_small.
  - split.
    + apply Z.div_le_lower_bound; lia.
    + apply Z.div_le_upper_bound; lia.
  - unfold two64. split; [nia|].
    assert (Z.of_nat (List.length volumes) <= 30) by lia.
    assert (Z.of_nat (List.length volumes) * hi <= 30 * 2 ^ 59) by nia.
    change (2 ^ 59) with 576460752303423488 in *. lia.
Qed.

Section AverageRuns.
#[local] Existing Instance no_libm.

(** The samples 2..31 lie between 2 and 31, and so does their average,
    16. *)
Lemma average_is_between_the_samples_witness :
  history (appends (new (D := float)) thirty_one_appends) "NIFTY" <> [] /\
  2 <= get30DayAverageVolume (appends (new (D := float)) thirty_one_appends) "NIFTY"
  <= 31.
Proof.
  assert (N : history (appends (new (D := float)) thirty_one_appends) "NIFTY" <> [])
    by (vm_compute; discriminate).
  split; [exact N|].
  apply (average_is_between_the_samples float _ "NIFTY" 2 31 N).
  - vm_compute. lia.
  - lia.
  - reflexivity.
  - vm_compute. repeat (constructor; [split; intro; discriminate|]). constructor.
Defined.
End AverageRuns.

(* ================================================================== *)
(** ** Further properties: the contract registry *)

Section RegistryFacts.
Context {D : Type} {num : Double D}.
Implicit Types this : PricingEngine.t D.

Lemma In_getContracts this underlying contract :
  In contract (getContracts this underlying)
  <-> ContractDetails.underlying contract = underlying
      /\ exists key, In (key, contract) (PricingEngine.contracts_ this).
Proof.
  unfold getContracts, StdMap.values. rewrite filter_In, in_map_iff.
  split.
  - intros [([key c] & E & H) U]. simpl in E. subst c.
    apply String.eqb_eq in U. split; [exact U|now exists key].
  - intros [U [key H]]. split.
    + exists (key, contract). now split.
    + now apply String.eqb_eq.
Qed.

Lemma StronglySorted_filter {A} (R : A -> A -> Prop) (f : A -> bool) (l : list A) :
  StronglySorted R l -> StronglySorted R (filter f l).
Proof.
  induction 1 as [|x l S IH F]; simpl; [constructor|].
  destruct (f x); [|exact IH]. constructor; [exact IH|].
  rewrite Forall_forall in *. intros y Hy. apply filter_In in Hy. now apply F.
Qed.

Lemma StronglySorted_map_snd {V} (R : V -> V -> Prop) (m : StdMap.t V) :
  StronglySorted (fun a b => R (snd a) (snd b)) m ->
  StronglySorted R (map snd m).
Proof.
  induction 1 as [|x l S IH F]; simpl; constructor; [exact IH|].
  rewrite Forall_forall in *. intros y Hy. apply in_map_iff in Hy.
  destruct Hy as (kv & <- & Hkv). now apply F.
Qed.
End RegistryFacts.

(** X6. [addContract] inserts or replaces by symbol: on an engine that
    the public member functions built, the contracts of an underlying
    after [addContract] are the added contract, when it is of that
    underlying, and the contracts of the underlying that were there under
    another symbol. *)
Theorem addContract_inserts_or_replaces_by_symbol :
  forall (D : Type) (num : Double D) (this : PricingEngine.t D)
         (contract other : ContractDetails.t D) (underlying : string),
    reachable this ->
    (In other (getContracts (addContract this contract) underlying)
     <-> (other = contract /\ ContractDetails.underlying contract = underlying)
         \/ (ContractDetails.symbol other <> ContractDetails.symbol contract
             /\ In other (getContracts this underlying))).
Proof.
  intros D num this contract other underlying R.
  destruct (reachable_consistent this R) as [_ _ A _ _ _ K _].
  rewrite Forall_forall in K.
  rewrite !In_getContracts. simpl. split.
  - intros [U [key H]]. apply (In_insert _ _ _ _ A) in H. simpl in H.
    destruct H as [[= -> ->]|[N H]]; [now left|right].
    pose proof (K _ H) as S. simpl in S. split; [congruence|].
    split; [exact U|now exists key].
  - intros [[-> U]|[N [U [key H]]]].
    + split; [exact U|]. exists (ContractDetails.symbol contract).
      apply (In_insert _ _ _ _ A). now left.
    + split; [exact U|]. exists key. apply (In_insert _ _ _ _ A). right.
      pose proof (K _ H) as S. simpl in *. split; [congruence|exact H].
Qed.

(** X7. On an engine that the public member functions built,
    [getContracts] lists the contracts of the underlying in strictly
    ascending order of their symbols (the order of the registry), so that
    no symbol comes twice. *)
Theorem getContracts_ascend_by_symbol :
  forall (D : Type) (num : Double D) (this : PricingEngine.t D) (underlying : string),
    reachable this ->
    StronglySorted
      (fun a b => String.compare (ContractDetails.symbol a) (ContractDetails.symbol b) = Lt)
      (getContracts this underlying) /\
    NoDup (map ContractDetails.symbol (getContracts this underlying)) /\
    Forall (fun c => ContractDetails.underlying c = underlying)
      (getContracts this underlying).
Proof.
  intros D num this underlying R.
  destruct (reachable_consistent this R) as [_ _ A _ _ _ K _].
  assert (S : StronglySorted
                (fun a b => String.compare (ContractDetails.symbol a)
                              (ContractDetails.symbol b) = Lt)
                (getContracts this underlying)).
  { apply StronglySorted_filter, StronglySorted_map_snd.
    unfold ascending in A. induction A as [|kv m S IH F]; constructor.
    - apply IH. now inversion K.
    - inversion K as [|? ? Hk Km]; subst. rewrite Forall_forall in *.
      intros kv' H. rewrite Hk, (Km _ H). now apply F. }
  split; [exact S|]. split.
  - induction S as [|c l S IH F]; simpl; constructor; [|exact IH].
    rewrite Forall_forall in F. intro H. apply in_map_iff in H.
    destruct H as (c' & E & H). apply F in H. rewrite E in H.
    now apply compare_lt_neq in H.
  - apply Forall_forall. intros c H. now apply In_getContracts in H.
Qed.

Section RegistryRuns.
#[local] Existing Instance no_libm.

(** A contract added again under its symbol with another underlying
    leaves its former underlying. *)
Lemma addContract_witness :
  reachable both_quoted /\
  map ContractDetails.symbol (getContracts both_quoted "NIFTY")
  = ["NIFTYBEES"; "NIFTYETF"] /\
  map ContractDetails.symbol
    (getContracts (addContract both_quoted (cash "NIFTYETF" "BANKNIFTY")) "NIFTY")
  = ["NIFTYBEES"] /\
  (In (cash "NIFTYETF" "BANKNIFTY")
     (getContracts (addContract both_quoted (cash "NIFTYETF" "BANKNIFTY")) "BANKNIFTY")).
Proof.
  assert (R : reachable both_quoted) by (repeat constructor).
  split; [exact R|]. split; [reflexivity|]. split; [reflexivity|].
  apply (addContract_inserts_or_replaces_by_symbol float binary64 both_quoted
           (cash "NIFTYETF" "BANKNIFTY") (cash "NIFTYETF" "BANKNIFTY") "BANKNIFTY" R).
  left. split; reflexivity.
Defined.

Lemma getContracts_ascend_witness :
  reachable both_quoted /\
  NoDup (map ContractDetails.symbol (getContracts both_quoted "NIFTY")).
Proof.
  assert (R : reachable both_quoted) by (repeat constructor).
  split; [exact R|].
  exact (proj1 (proj2 (getContracts_ascend_by_symbol float binary64 both_quoted "NIFTY" R))).
Defined.
End RegistryRuns.

(* ================================================================== *)
(** ** Further properties: the ranking and the optimal contract *)

Lemma compareContract_instrument_type {D} `{Double D} (this : PricingEngine.t D)
    (now : Z) (target_quantity : D) (contract : ContractDetails.t D) :
  PriceComparison.instrument_type (compareContract this now target_quantity contract)
  = ContractDetails.instrument_type contract.
Proof. unfold compareContract. now destruct (ltb _ _). Qed.

Lemma compareContract_percentage_diff {D} `{Double D} (this : PricingEngine.t D)
    (now : Z) (target_quantity : D) (contract : ContractDetails.t D) :
  exists price,
    PriceComparison.percentage_diff (compareContract this now target_quantity contract)
    = ((price - calculateFairValue this now contract)
       / calculateFairValue this now contract * of_Z 100)%D.
Proof. unfold compareContract. destruct (ltb _ _); eexists; reflexivity. Qed.

Lemma compareContract_liquidity_without_history {D} `{Double D}
    (this : PricingEngine.t D) (now : Z) (target_quantity : D)
    (contract : ContractDetails.t D) :
  get30DayAverageVolume this (ContractDetails.symbol contract) = 0 ->
  PriceComparison.liquidity_score (compareContract this now target_quantity contract)
  = of_Z 0.
Proof. intro A. unfold compareContract. rewrite A. now destruct (ltb _ _). Qed.

(** The first match of a list in order precedes the other matches. *)
Lemma find_first_of_sorted {A} (R : A -> A -> Prop) (f : A -> bool) (l : list A) r :
  StronglySorted R l -> List.find f l = Some r ->
  forall x, In x l -> f x = true -> x = r \/ R r x.
Proof.
  induction 1 as [|a l S IH F]; simpl; [discriminate|].
  destruct (f a) eqn:Fa.
  - intros [= <-] x [<-|Hx] _; [now left|right].
    rewrite Forall_forall in F. now apply F.
  - intros E x [<-|Hx] Fx; [congruence|now apply IH].
Qed.

(** X8. For an underlying without contracts, [compareContracts] returns
    the empty sequence and [findOptimalContract] the value-initialized
    comparison [PriceComparison{}] (empty strings, zeros and false),
    whatever the sort and the arithmetic. *)
Theorem no_contract_no_comparison :
  forall (D : Type) (num : Double D) (sorter : StdSort) (this : PricingEngine.t D)
         (now : Z) (underlying instrument_type : string) (target_quantity : D),
    getContracts this underlying = [] ->
    compareContracts this now underlying target_quantity = [] /\
    findOptimalContract this now underlying instrument_type target_quantity
    = empty_comparison.
Proof.
  intros D num sorter this now underlying instrument_type target_quantity E.
  assert (C : compareContracts this now underlying target_quantity = []).
  { unfold compareContracts. rewrite E. simpl.
    assert (O : strict_weak_ordering (by_abs_percentage_diff (D := D)) [])
      by (split; intros; contradiction).
    destruct (std_sort_spec _ _ _ O) as [P _].
    now apply Permutation_nil in P. }
  split; [exact C|]. unfold findOptimalContract. now rewrite C.
Qed.

Section EmptyRuns.
#[local] Existing Instance no_libm.
#[local] Existing Instance libstdcxx.

Lemma no_contract_no_comparison_witness :
  getContracts both_quoted "SENSEX" = [] /\
  compareContracts both_quoted 0 "SENSEX" 1%float = [] /\
  findOptimalContract both_quoted 0 "SENSEX" "FUTURE" 1%float = empty_comparison.
Proof.
  split; [reflexivity|].
  exact (no_contract_no_comparison float binary64 libstdcxx both_quoted 0
           "SENSEX" "FUTURE" 1%float eq_refl).
Defined.
End EmptyRuns.

(** X9. When no contract of the underlying has a NaN percentage
    deviation, [compareContracts] returns one comparison per contract of
    the underlying: the result is a rearrangement of the comparisons of
    the contracts, for every sort that meets the contract of
    [std::sort]. *)
Theorem one_comparison_per_contract :
  forall (libm : Libm) (sorter : StdSort) (this : PricingEngine.t float) (now : Z)
         (underlying : string) (target_quantity : float),
    (forall contract, In contract (getContracts this underlying) ->
       is_nan (PriceComparison.percentage_diff
                 (compareContract this now target_quantity contract)) = false) ->
    Permutation
      (map (compareContract this now target_quantity) (getContracts this underlying))
      (compareContracts this now underlying target_quantity) /\
    List.length (compareContracts this now underlying target_quantity)
    = List.length (getContracts this underlying).
Proof.
  intros libm sorter this now underlying target_quantity N.
  assert (P : Permutation
                (map (compareContract this now target_quantity)
                   (getContracts this underlying))
                (compareContracts this now underlying target_quantity)).
  { unfold compareContracts. apply std_sort_spec, by_abs_percentage_diff_ordering.
    intros c Hc. apply in_map_iff in Hc. destruct Hc as (contract & <- & Hc).
    now apply N. }
  split; [exact P|].
  rewrite <- (Permutation_length P). apply length_map.
Qed.

(** X10. When no contract of the underlying has a NaN percentage
    deviation, [findOptimalContract] returns the comparison of a contract
    of the underlying of the requested instrument type whose absolute
    percentage deviation is the smallest among the contracts of that type;
    when the underlying has no contract of that type it returns
    [PriceComparison{}]. *)
Theorem findOptimalContract_is_optimal :
  forall (libm : Libm) (sorter : StdSort) (this : PricingEngine.t float) (now : Z)
         (underlying instrument_type : string) (target_quantity : float),
    (forall contract, In contract (getContracts this underlying) ->
       is_nan (PriceComparison.percentage_diff
                 (compareContract this now target_quantity contract)) = false) ->
    let best :=
      findOptimalContract this now underlying instrument_type target_quantity in
    ((forall contract, In contract (getContracts this underlying) ->
        ContractDetails.instrument_type contract <> instrument_type) ->
     best = empty_comparison) /\
    (forall contract, In contract (getContracts this underlying) ->
       ContractDetails.instrument_type contract = instrument_type ->
       (exists chosen,
           In chosen (getContracts this underlying) /\
           ContractDetails.instrument_type chosen = instrument_type /\
           best = compareContract this now target_quantity chosen) /\
       (abs (PriceComparison.percentage_diff best)
        <=? abs (PriceComparison.percentage_diff
                   (compareContract this now target_quantity contract)))%float = true).
Proof.
  intros libm sorter this now underlying instrument_type target_quantity N best.
  set (comparisons := map (compareContract this now target_quantity)
                        (getContracts this underlying)).
  assert (N' : forall c, In c comparisons ->
                 is_nan (PriceComparison.percentage_diff c) = false).
  { intros c Hc. apply in_map_iff in Hc. destruct Hc as (contract & <- & Hc).
    now apply N. }
  destruct (std_sort_spec _ by_abs_percentage_diff comparisons
              (by_abs_percentage_diff_ordering comparisons N')) as [P S].
  fold (compareContracts this now underlying target_quantity) in P, S.
  unfold best, findOptimalContract.
  destruct (List.find _ (compareContracts this now underlying target_quantity))
    as [r|] eqn:E.
  - pose proof (find_some _ _ E) as [Hr Tr]. apply String.eqb_eq in Tr.
    apply (Permutation_in _ (Permutation_sym P)) in Hr.
    pose proof Hr as Hr'. apply in_map_iff in Hr'.
    destruct Hr' as (chosen & Er & Hchosen).
    assert (Tc : ContractDetails.instrument_type chosen = instrument_type)
      by (rewrite <- Tr, <- Er; symmetry; apply compareContract_instrument_type).
    split.
    + intro A. exfalso. exact (A chosen Hchosen Tc).
    + intros contract Hc Tcontract. split; [exists chosen; now repeat split|].
      set (x := compareContract this now target_quantity contract).
      assert (Hx : In x comparisons) by (apply in_map; exact Hc).
      assert (Fx : String.eqb (PriceComparison.instrument_type x) instrument_type = true).
      { apply String.eqb_eq. unfold x.
        now rewrite compareContract_instrument_type. }
      destruct (find_first_of_sorted _ _ _ _ S E x (Permutation_in _ P Hx) Fx)
        as [->|L].
      * apply F.leb_refl, F.abs_nan, N', Hr.
      * unfold by_abs_percentage_diff in L. cbn [ltb fabs binary64] in L.
        apply F.ltb_false_leb; [| |exact L]; apply F.abs_nan, N'; assumption.
  - split; [reflexivity|]. intros contract Hc Tcontract. exfalso.
    pose proof (find_none _ _ E (compareContract this now target_quantity contract)
                  (Permutation_in _ P (in_map _ _ _ Hc))) as F.
    simpl in F. rewrite compareContract_instrument_type, Tcontract in F.
    now rewrite String.eqb_refl in F.
Qed.

Section OptimalRuns.
#[local] Existing Instance no_libm.
#[local] Existing Instance libstdcxx.

Lemma both_quoted_has_no_NaN :
  forall contract, In contract (getContracts both_quoted "NIFTY") ->
    is_nan (PriceComparison.percentage_diff
              (compareContract both_quoted 0 1%float contract)) = false.
Proof. intros contract [<-|[<-|[]]]; reflexivity. Qed.

Lemma one_comparison_per_contract_witness :
  (forall contract, In contract (getContracts both_quoted "NIFTY") ->
     is_nan (PriceComparison.percentage_diff
               (compareContract both_quoted 0 1%float contract)) = false) /\
  List.length (compareContracts both_quoted 0 "NIFTY" 1%float)
  = List.length (getContracts both_quoted "NIFTY").
Proof.
  split; [exact both_quoted_has_no_NaN|].
  exact (proj2 (one_comparison_per_contract no_libm libstdcxx both_quoted 0 "NIFTY"
                  1%float both_quoted_has_no_NaN)).
Defined.

(** Of the two cash contracts of NIFTY, the one at +0.12% is returned
    rather than the one at -0.25%; there is no future. *)
Lemma findOptimalContract_witness :
  PriceComparison.symbol (findOptimalContract both_quoted 0 "NIFTY" "CASH" 1%float)
  = "NIFTYETF" /\
  (abs (PriceComparison.percentage_diff
          (findOptimalContract both_quoted 0 "NIFTY" "CASH" 1%float))
   <=? abs (PriceComparison.percentage_diff
              (compareContract both_quoted 0 1%float (cash "NIFTYBEES" "NIFTY"))))%float
  = true /\
  findOptimalContract both_quoted 0 "NIFTY" "FUTURE" 1%float = empty_comparison.
Proof.
  split; [reflexivity|]. split.
  - apply (proj2 (findOptimalContract_is_optimal no_libm libstdcxx both_quoted 0
                    "NIFTY" "CASH" 1%float both_quoted_has_no_NaN)
             (cash "NIFTYBEES" "NIFTY")).
    + now left.
    + reflexivity.
  - apply (proj1 (findOptimalContract_is_optimal no_libm libstdcxx both_quoted 0
                    "NIFTY" "FUTURE" 1%float both_quoted_has_no_NaN)).
    intros contract [<-|[<-|[]]]; discriminate.
Defined.
End OptimalRuns.

(* ================================================================== *)
(** ** Further properties: the recommendation *)

Module FR.
#[local] Open Scope float_scope.

Lemma abs_ltb_finite x y : (abs x <? y) = true -> is_finite x = true.
Proof.
  rewrite ltb_spec, abs_spec, F.is_finite_spec. unfold SFltb.
  now destruct (Prim2SF x) as [[]|[]| |[] ? ?], (Prim2SF y) as [[]|[]| |[] ? ?].
Qed.

Lemma eqb_zero x : (x =? 0) = true -> exists s, Prim2SF x = S754_zero s.
Proof.
  rewrite eqb_spec. change (Prim2SF 0) with (S754_zero false). unfold SFeqb.
  destruct (Prim2SF x) as [s|[]| |[] ? ?]; try discriminate. intros _. now exists s.
Qed.

(** A quotient by a zero, times a double, is not finite. *)
Lemma div_zero_mul_not_finite x y z :
  (y =? 0) = true -> is_finite (x / y * z) = false.
Proof.
  intro H. destruct (eqb_zero y H) as [s E].
  rewrite F.is_finite_spec, mul_spec, div_spec, E.
  now rewrite F.mul_nonfinite by apply F.div_zero_nonfinite.
Qed.
End FR.

(** X11. A comparison that is recommended has a finite percentage
    deviation (neither NaN nor an infinity), a fair value other than zero,
    a symbol with a history of volumes whose average is not 0, and a
    compliant target quantity.  So a contract whose fair value is 0 (an
    instrument type that is not priced, an option expired out of the
    money, a cash contract without quotes) and a contract without volume
    history are never recommended. *)
Theorem recommended_comparisons_are_sound :
  forall (libm : Libm) (this : PricingEngine.t float) (now : Z)
         (target_quantity : float) (contract : ContractDetails.t float),
    let comparison := compareContract this now target_quantity contract in
    PriceComparison.is_recommended comparison = true ->
    is_finite (PriceComparison.percentage_diff comparison) = true /\
    (calculateFairValue this now contract =? 0)%float = false /\
    get30DayAverageVolume this (ContractDetails.symbol contract) <> 0 /\
    checkVolumeConstraints this (ContractDetails.symbol contract) target_quantity = true.
Proof.
  intros libm this now target_quantity contract comparison H.
  assert (H' : (abs (PriceComparison.percentage_diff comparison) <? lit 5 10)%float = true
               /\ (lit 6 10 <? PriceComparison.liquidity_score comparison)%float = true
               /\ PriceComparison.volume_compliant comparison = true).
  { unfold comparison, compareContract in *. destruct (ltb _ _); simpl in H |- *;
      apply andb_prop in H; destruct H as [H _];
      apply andb_prop in H; destruct H as [H C];
      apply andb_prop in H; destruct H as [P L]; now repeat split. }
  destruct H' as (P & L & C).
  assert (Fin : is_finite (PriceComparison.percentage_diff comparison) = true)
    by exact (FR.abs_ltb_finite _ _ P).
  split; [exact Fin|]. split; [|split].
  - destruct (calculateFairValue this now contract =? 0)%float eqn:Z; [|reflexivity].
    destruct (compareContract_percentage_diff this now target_quantity contract)
      as [price E].
    fold comparison in E. rewrite E in Fin. cbn [mul div sub of_Z binary64] in Fin.
    now rewrite FR.div_zero_mul_not_finite in Fin.
  - intro A. unfold comparison in L.
    rewrite (compareContract_liquidity_without_history _ _ _ _ A) in L.
    discriminate.
  - unfold comparison, compareContract in C. now destruct (ltb _ _).
Qed.

Section RecommendationRuns.
#[local] Existing Instance no_libm.

(** NIFTYETF in [both_quoted] is recommended; NIFTYBEES is not (its
    spread is 1%), and in [one_quoted] NIFTYETF, without quotes, is not. *)
Lemma recommended_comparisons_witness :
  PriceComparison.is_recommended
    (compareContract both_quoted 0 1%float (cash "NIFTYETF" "NIFTY")) = true /\
  is_finite (PriceComparison.percentage_diff
               (compareContract both_quoted 0 1%float (cash "NIFTYETF" "NIFTY"))) = true /\
  get30DayAverageVolume both_quoted "NIFTYETF" <> 0 /\
  PriceComparison.is_recommended
    (compareContract both_quoted 0 1%float (cash "NIFTYBEES" "NIFTY")) = false /\
  PriceComparison.is_recommended
    (compareContract one_quoted 0 1%float (cash "NIFTYETF" "NIFTY")) = false.
Proof.
  assert (H : PriceComparison.is_recommended
                (compareContract both_quoted 0 1%float (cash "NIFTYETF" "NIFTY")) = true)
    by reflexivity.
  split; [exact H|].
  destruct (recommended_comparisons_are_sound no_libm both_quoted 0 1%float
              (cash "NIFTYETF" "NIFTY") H) as (Fin & _ & A & _).
  split; [exact Fin|]. split; [exact A|]. split; reflexivity.
Defined.
End RecommendationRuns.

(* ================================================================== *)
(** ** Further properties: fair values in exact arithmetic *)

Section FairValueFacts.
#[local] Open Scope R_scope.

(** A weighted mean lies between the two values. *)
Lemma weighted_mean_between (p q a b : R) :
  0 <= a -> 0 <= b -> 0 < a + b ->
  Rmin p q <= (p * a + q * b) / (a + b) <= Rmax p q.
Proof.
  intros A B P.
  assert (L : Rmin p q <= p) by apply Rmin_l.
  assert (L' : Rmin p q <= q) by apply Rmin_r.
  assert (U : p <= Rmax p q) by apply Rmax_l.
  assert (U' : q <= Rmax p q) by apply Rmax_r.
  split.
  - apply Rmult_le_reg_r with (a + b); [exact P|].
    unfold Rdiv. rewrite Rmult_assoc, Rinv_l, Rmult_1_r by lra.
    rewrite Rmult_plus_distr_l.
    apply Rplus_le_compat; now apply Rmult_le_compat_r.
  - apply Rmult_le_reg_r with (a + b); [exact P|].
    unfold Rdiv. rewrite Rmult_assoc, Rinv_l, Rmult_1_r by lra.
    rewrite Rmult_plus_distr_l.
    apply Rplus_le_compat; now apply Rmult_le_compat_r.
Qed.

Lemma midpoint_between (p q : R) : Rmin p q <= (p + q) / 2 <= Rmax p q.
Proof.
  unfold Rmin, Rmax. destruct (Rle_dec p q); lra.
Qed.
End FairValueFacts.

(** X12. In exact arithmetic, the fair value of a cash contract lies
    between the last prices of its two venues, whenever the two volumes
    are those of unsigned integers and their sum does not wrap: it is
    their volume-weighted mean, or their midpoint when nothing was
    traded. *)
Theorem cash_fair_value_is_between_the_venues :
  forall (this : PricingEngine.t R) (now : Z) (contract : ContractDetails.t R),
    let nse_data := getMarketData this now (ContractDetails.symbol contract) "NSE" in
    let bse_data := getMarketData this now (ContractDetails.symbol contract) "BSE" in
    ContractDetails.instrument_type contract = "CASH" ->
    0 <= MarketData.volume nse_data ->
    0 <= MarketData.volume bse_data ->
    MarketData.volume nse_data + MarketData.volume bse_data < two64 ->
    (Rmin (MarketData.price nse_data) (MarketData.price bse_data)
     <= calculateFairValue this now contract
     <= Rmax (MarketData.price nse_data) (MarketData.price bse_data))%R.
Proof.
  intros this now contract nse_data bse_data T A B W.
  unfold calculateFairValue. rewrite T. cbn [String.eqb Ascii.eqb Bool.eqb].
  fold nse_data bse_data. cbv zeta. unfold wrap64.
  rewrite Z.mod_small by lia.
  cbn [ltb add mul div of_Z exact]. rewrite plus_IZR.
  destruct (Rlt_dec 0 _) as [P|_].
  - apply weighted_mean_between; [now apply IZR_le|now apply IZR_le|exact P].
  - apply midpoint_between.
Qed.

Lemma cash_fair_value_witness :
  ContractDetails.instrument_type (cash (D := R) "RELIANCE" "RELIANCE") = "CASH" /\
  (100 <= calculateFairValue exact_cash_market 0 (cash "RELIANCE" "RELIANCE") <= 101)%R.
Proof.
  split; [reflexivity|].
  assert (H := cash_fair_value_is_between_the_venues exact_cash_market 0
                 (cash "RELIANCE" "RELIANCE") eq_refl).
  cbn in H.
  assert (A : 0 <= 3000) by lia. assert (B : 0 <= 1000) by lia.
  assert (W : 3000 + 1000 < two64) by (vm_compute; reflexivity).
  specialize (H A B W).
  unfold Rmin, Rmax in H. destruct (Rle_dec 100 101); [exact H|lra].
Defined.

(* ================================================================== *)
(** ** Further properties: the time to expiry *)

(** X13. On doubles, [getTimeToExpiry] never returns a negative number
    nor NaN, whatever the two readings of the clock: [0 <= T] holds. *)
Theorem time_to_expiry_is_not_negative :
  forall (libm : Libm) (now expiry : Z),
    (0 <=? getTimeToExpiry now expiry)%float = true.
Proof.
  intros libm now expiry. unfold getTimeToExpiry. cbv zeta. unfold std_max.
  cbn [ltb of_Z binary64].
  change (float_of_Z 0) with 0%float.
  destruct (0 <? _)%float eqn:E.
  - now apply F.ltb_leb.
  - reflexivity.
Qed.

Section ClockRuns.
#[local] Existing Instance no_libm.

(** With the smallest [time_point] as the expiry, the difference from a
    clock at 1.7e18 ticks wraps around: 2089825 hours are counted, 238.56
    years. *)
Example time_to_expiry_of_a_wrapped_difference :
  Z.quot (wrap_int64 (- two63 - 1700000000000000000)) ticks_per_hour = 2089825 /\
  getTimeToExpiry (D := float) 1700000000000000000 (- two63)
  = 0x1.dd2105d841761p+7%float.
Proof. split; vm_compute; reflexivity. Qed.
End ClockRuns.

Section ExpiryFacts.
#[local] Open Scope R_scope.

Lemma wrap_int64_small (z : Z) : (- two63 <= z < two63)%Z -> wrap_int64 z = z.
Proof.
  intro H. unfold wrap_int64. unfold two63, two64 in *.
  rewrite Z.mod_small; lia.
Qed.

Lemma getTimeToExpiry_exact (now expiry : Z) :
  (- two63 <= expiry - now < two63)%Z ->
  getTimeToExpiry (D := R) now expiry
  = IZR (Z.max 0 (Z.quot (expiry - now) ticks_per_hour)) / 8760.
Proof.
  intro B. unfold getTimeToExpiry. cbv zeta. rewrite (wrap_int64_small _ B).
  rewrite std_max_exact. cbn [div of_Z exact].
  destruct (Z.max_spec 0 (Z.quot (expiry - now) ticks_per_hour)) as [[L ->]|[L ->]].
  - apply IZR_lt in L. rewrite Rmax_right; lra.
  - apply IZR_le in L. rewrite Rmax_left; lra.
Qed.

Lemma getTimeToExpiry_expired (now expiry : Z) :
  (- two63 <= expiry - now < ticks_per_hour)%Z ->
  getTimeToExpiry (D := R) now expiry = 0.
Proof.
  intros [B L]. rewrite getTimeToExpiry_exact
    by (split; [exact B|unfold ticks_per_hour, two63 in *; lia]).
  assert (Q : (Z.quot (expiry - now) ticks_per_hour <= 0)%Z).
  { destruct (Z.le_gt_cases 0 (expiry - now)) as [P|N].
    - rewrite Z.quot_small; [lia|]. split; assumption.
    - apply Z.quot_le_upper_bound; [reflexivity|]. unfold ticks_per_hour in *. lia. }
  rewrite Z.max_l by exact Q. lra.
Qed.

(** X14. In exact arithmetic, for an expiry and a reading of the clock
    less than 2^63 ticks apart (so that their difference does not wrap),
    the time to expiry counts the whole hours left, in years of 8760
    hours: it is 0 when less than an hour is left or the expiry has
    passed, and otherwise positive and at most the time left. *)
Theorem time_to_expiry_counts_whole_hours :
  forall now expiry : Z,
    (- two63 <= expiry - now < two63)%Z ->
    getTimeToExpiry (D := R) now expiry
    = IZR (Z.max 0 (Z.quot (expiry - now) ticks_per_hour)) / 8760 /\
    ((expiry - now < ticks_per_hour)%Z -> getTimeToExpiry (D := R) now expiry = 0) /\
    ((ticks_per_hour <= expiry - now)%Z ->
     0 < getTimeToExpiry (D := R) now expiry
         <= IZR (expiry - now) / IZR ticks_per_hour / 8760).
Proof.
  intros now expiry B.
  split; [now apply getTimeToExpiry_exact|].
  split; [intro L; apply getTimeToExpiry_expired; split; [apply B|exact L]|].
  rewrite getTimeToExpiry_exact by exact B. intro L.
  assert (P : (0 <= expiry - now)%Z) by (unfold ticks_per_hour in L; lia).
  assert (Q : (1 <= Z.quot (expiry - now) ticks_per_hour)%Z).
  { apply Z.quot_le_lower_bound; [reflexivity|]. lia. }
  rewrite Z.max_r by lia.
  assert (U : (Z.quot (expiry - now) ticks_per_hour * ticks_per_hour <= expiry - now)%Z).
  { rewrite Z.mul_comm. apply Z.mul_quot_le; [exact P|discriminate]. }
  apply IZR_le in Q, U. rewrite mult_IZR in U.
  assert (T : 0 < IZR ticks_per_hour) by (apply IZR_lt; reflexivity).
  split.
  - lra.
  - apply Rmult_le_compat_r; [lra|].
    apply Rmult_le_reg_r with (IZR ticks_per_hour); [exact T|].
    unfold Rdiv at 1. rewrite Rmult_assoc, Rinv_l, Rmult_1_r by lra. exact U.
Qed.

(** Three and a half hours before the expiry: three hours are counted;
    one tick less than an hour before it: none. *)
Lemma time_to_expiry_witness :
  (- two63 <= 12600000000000 - 0 < two63)%Z /\
  (ticks_per_hour <= 12600000000000 - 0)%Z /\
  0 < getTimeToExpiry (D := R) 0 12600000000000
      <= IZR (12600000000000 - 0) / IZR ticks_per_hour / 8760 /\
  getTimeToExpiry (D := R) 0 12600000000000 = 3 / 8760 /\
  getTimeToExpiry (D := R) 12600000000000 (12600000000000 + 3599999999999) = 0.
Proof.
  assert (B : (- two63 <= 12600000000000 - 0 < two63)%Z)
    by (unfold two63, ticks_per_hour; lia).
  assert (B' : (- two63 <= 12600000000000 + 3599999999999 - 12600000000000 < two63)%Z)
    by (unfold two63, ticks_per_hour; lia).
  assert (L : (ticks_per_hour <= 12600000000000 - 0)%Z) by (vm_compute; discriminate).
  split; [exact B|]. split; [exact L|].
  split; [exact (proj2 (proj2 (time_to_expiry_counts_whole_hours 0 12600000000000 B)) L)|].
  split.
  - rewrite (proj1 (time_to_expiry_counts_whole_hours 0 12600000000000 B)).
    reflexivity.
  - apply (proj1 (proj2 (time_to_expiry_counts_whole_hours _ _ B'))).
    vm_compute. reflexivity.
Defined.

(** X15. In exact arithmetic, with less than an hour to the expiry or
    after it (by less than 2^63 ticks, so that the difference does not
    wrap), the fair value of a future is the last NSE price of its
    underlying, and that of an option its intrinsic value against that
    price: [max(0, S - K)] for the option type CE and [max(0, K - S)] for
    every other option type. *)
Theorem fair_value_at_expiry :
  forall (this : PricingEngine.t R) (now : Z) (contract : ContractDetails.t R),
    let spot :=
      MarketData.price (getMarketData this now (ContractDetails.underlying contract) "NSE") in
    (- two63 <= ContractDetails.expiry contract - now < ticks_per_hour)%Z ->
    (ContractDetails.instrument_type contract = "FUTURE" ->
     calculateFairValue this now contract = spot) /\
    (ContractDetails.instrument_type contract = "OPTION" ->
     calculateFairValue this now contract
     = if String.eqb (ContractDetails.option_type contract) "CE"
       then Rmax 0 (spot - ContractDetails.strike contract)
       else Rmax 0 (ContractDetails.strike contract - spot)).
Proof.
  intros this now contract spot L.
  pose proof (getTimeToExpiry_expired now _ L) as T.
  split; intro I; unfold calculateFairValue; rewrite I;
    cbn [String.eqb Ascii.eqb Bool.eqb]; cbv zeta; rewrite T.
  - cbn [mul exp exact]. rewrite Rmult_0_r, exp_0. fold spot. ring.
  - unfold calculateOptionFairValue, blackScholes. cbv zeta.
    replace (leb (D := R) 0 (of_Z 0)) with true
      by (symmetry; apply leb_exact; cbn; lra).
    rewrite !std_max_exact. fold spot. cbn [sub of_Z exact]. reflexivity.
Qed.
End ExpiryFacts.

Section ExactExpiryRuns.
#[local] Open Scope R_scope.

(** With the index at 20100, an expired call struck at 20000 is worth 100,
    the put 0, and the future 20100. *)
Lemma fair_value_at_expiry_witness :
  (- two63 <= 0 - 0 < ticks_per_hour)%Z /\
  calculateFairValue exact_index_market 0
    (derivative "NIFTY20000CE" "NIFTY" "OPTION" 20000 0 "CE" 50) = 100 /\
  calculateFairValue exact_index_market 0
    (derivative "NIFTY20000PE" "NIFTY" "OPTION" 20000 0 "PE" 50) = 0 /\
  calculateFairValue exact_index_market 0
    (derivative "NIFTYFUT" "NIFTY" "FUTURE" 0 0 "" 50) = 20100.
Proof.
  assert (L : (- two63 <= 0 - 0 < ticks_per_hour)%Z) by (unfold two63, ticks_per_hour; lia).
  split; [exact L|]. split; [|split].
  - rewrite (proj2 (fair_value_at_expiry exact_index_market 0
                      (derivative "NIFTY20000CE" "NIFTY" "OPTION" 20000 0 "CE" 50) L)
               eq_refl).
    cbn. rewrite Rmax_right; lra.
  - rewrite (proj2 (fair_value_at_expiry exact_index_market 0
                      (derivative "NIFTY20000PE" "NIFTY" "OPTION" 20000 0 "PE" 50) L)
               eq_refl).
    cbn. rewrite Rmax_left; lra.
  - rewrite (proj1 (fair_value_at_expiry exact_index_market 0
                      (derivative "NIFTYFUT" "NIFTY" "FUTURE" 0 0 "" 50) L)
               eq_refl).
    reflexivity.
Defined.
End ExactExpiryRuns.

(* ================================================================== *)
(** ** Further properties: the normal distribution and the Greeks *)

Section GreeksFacts.
#[local] Open Scope R_scope.

Lemma sqrt_2PI_pos : 0 < R_sqrt.sqrt (2 * PI).
Proof. apply sqrt_lt_R0. pose proof PI_RGT_0. lra. Qed.

Lemma normalPDF_exact (x : R) :
  normalPDF x = 1 / R_sqrt.sqrt (2 * PI) * Rtrigo_def.exp (- (1 / 2) * x * x).
Proof. reflexivity. Qed.

Lemma normalPDF_pos (x : R) : 0 < normalPDF x.
Proof.
  rewrite normalPDF_exact. apply Rmult_lt_0_compat; [|apply exp_pos].
  apply Rdiv_lt_0_compat; [lra|apply sqrt_2PI_pos].
Qed.

Lemma expired_exact (T : R) : 0 < T -> leb (D := R) T (of_Z 0) = false.
Proof. intro P. cbn [leb of_Z exact]. destruct (Rle_dec T 0); [lra|reflexivity]. Qed.

(** X16. In exact arithmetic the two functions of the normal distribution
    are symmetric: [normalCDF (-x) + normalCDF x = 1] with [normalCDF 0 =
    1/2], and the density is even, positive and greatest at 0, where it is
    [1 / sqrt (2 pi)]. *)
Theorem normal_distribution_is_symmetric :
  forall x : R,
    normalCDF (- x) + normalCDF x = 1 /\
    normalPDF (- x) = normalPDF x /\
    0 < normalPDF x <= normalPDF 0 /\
    normalPDF 0 = 1 / R_sqrt.sqrt (2 * PI).
Proof.
  intro x. split; [rewrite normalCDF_opp; lra|]. split; [|split; [split|]].
  - rewrite !normalPDF_exact. f_equal. f_equal. ring.
  - apply normalPDF_pos.
  - rewrite !normalPDF_exact. apply Rmult_le_compat_l.
    + apply Rlt_le, Rdiv_lt_0_compat; [lra|apply sqrt_2PI_pos].
    + destruct (Req_dec x 0) as [->|N]; [right; f_equal; ring|].
      left. apply exp_increasing.
      assert (0 < x * x) by (apply Rsqr_pos_lt in N; exact N). lra.
  - rewrite normalPDF_exact. replace (- (1 / 2) * 0 * 0) with 0 by ring.
    rewrite exp_0. ring.
Qed.

(** X17. Before the expiry and in exact arithmetic, for a positive spot,
    a positive strike and a positive volatility, the Greeks of a call and
    of the put of the same strike differ as put-call parity asks: the
    deltas by 1, the thetas per day by [- r K exp (- r T) / 365]; gamma
    and vega are the same, and rho is 0 for both. *)
Theorem greeks_of_call_and_put :
  forall S K r T sigma : R,
    0 < S -> 0 < K -> 0 < sigma -> 0 < T ->
    let call := calculateGreeks S K T r sigma "CE" in
    let put := calculateGreeks S K T r sigma "PE" in
    OptionGreeks.delta call - OptionGreeks.delta put = 1 /\
    OptionGreeks.theta call - OptionGreeks.theta put
    = - (r * K * Rtrigo_def.exp (- r * T)) / 365 /\
    OptionGreeks.gamma call = OptionGreeks.gamma put /\
    OptionGreeks.vega call = OptionGreeks.vega put /\
    OptionGreeks.rho call = 0 /\ OptionGreeks.rho put = 0.
Proof.
  intros S K r T sigma _ _ _ P call put. unfold call, put, calculateGreeks.
  cbn [String.eqb Ascii.eqb Bool.eqb OptionGreeks.delta OptionGreeks.theta
         OptionGreeks.gamma OptionGreeks.vega OptionGreeks.rho].
  unfold calculateDelta, calculateTheta. rewrite (expired_exact T P). cbv zeta.
  split; [cbn [sub of_Z exact]; ring|].
  split; [|now repeat split].
  rewrite normalCDF_opp. cbn [add sub mul div opp exp of_Z exact].
  unfold Rdiv. ring.
Qed.

Lemma greeks_of_call_and_put_witness :
  0 < 19850 /\ 0 < 20000 /\ 0 < 15 / 100 /\ 0 < 30 / 365 /\
  OptionGreeks.delta (calculateGreeks 19850 20000 (30 / 365) (6 / 100) (15 / 100) "CE")
  - OptionGreeks.delta (calculateGreeks 19850 20000 (30 / 365) (6 / 100) (15 / 100) "PE")
  = 1.
Proof.
  assert (A : 0 < 19850) by lra. assert (B : 0 < 20000) by lra.
  assert (C : 0 < 15 / 100) by lra. assert (P : 0 < 30 / 365) by lra.
  repeat (split; [assumption|]).
  exact (proj1 (greeks_of_call_and_put 19850 20000 (6 / 100) (30 / 365) (15 / 100)
                  A B C P)).
Defined.

(** X18. Before the expiry and in exact arithmetic, for a positive spot,
    a positive strike and a positive volatility, gamma and vega are
    positive, and they are tied by [vega = gamma * S^2 * sigma * T / 100]. *)
Theorem gamma_and_vega_are_positive :
  forall S K r T sigma : R,
    0 < S -> 0 < K -> 0 < sigma -> 0 < T ->
    0 < calculateGamma S K T r sigma /\
    0 < calculateVega S K T r sigma /\
    calculateVega S K T r sigma
    = calculateGamma S K T r sigma * S * S * sigma * T / 100.
Proof.
  intros S K r T sigma HS _ Hs HT. unfold calculateGamma, calculateVega.
  rewrite (expired_exact T HT). cbv zeta.
  assert (Q : 0 < R_sqrt.sqrt T) by now apply sqrt_lt_R0.
  assert (N := normalPDF_pos (d1_of S K T r sigma)).
  cbn [mul div of_Z sqrt exact].
  assert (M : 0 < S * sigma * R_sqrt.sqrt T)
    by (apply Rmult_lt_0_compat; [apply Rmult_lt_0_compat|]; assumption).
  split; [now apply Rdiv_lt_0_compat|]. split.
  - apply Rdiv_lt_0_compat; [|lra].
    apply Rmult_lt_0_compat; [apply Rmult_lt_0_compat|]; assumption.
  - set (n := normalPDF _) in *. set (q := R_sqrt.sqrt T) in *.
    assert (E : q * q = T) by (apply sqrt_sqrt; lra).
    clearbody n q. rewrite <- E. field. repeat split; lra.
Qed.

Lemma gamma_and_vega_witness :
  0 < 19850 /\ 0 < 20000 /\ 0 < 15 / 100 /\ 0 < 30 / 365 /\
  0 < calculateGamma 19850 20000 (30 / 365) (6 / 100) (15 / 100) /\
  0 < calculateVega 19850 20000 (30 / 365) (6 / 100) (15 / 100).
Proof.
  assert (A : 0 < 19850) by lra. assert (K : 0 < 20000) by lra.
  assert (B : 0 < 15 / 100) by lra. assert (C : 0 < 30 / 365) by lra.
  repeat (split; [assumption|]).
  destruct (gamma_and_vega_are_positive 19850 20000 (6 / 100) (30 / 365) (15 / 100)
              A K B C) as (G & V & _).
  split; [exact G|exact V].
Defined.
End GreeksFacts.

(* ================================================================== *)
(** ** Further properties: liquidity and volume *)

Section LiquidityFacts.
#[local] Open Scope R_scope.

(** X19. In exact arithmetic, for a quote with a positive price and
    [bid <= ask], against a positive average volume, the open interest
    and the spread add to the score more than 0 and at most 0.6: the score
    is above [0.4 * volume / average] by at most 0.6. *)
Theorem liquidity_score_bounds :
  forall (data : MarketData.t R) (volume_30day : Z),
    (0 < volume_30day)%Z ->
    (0 <= MarketData.open_interest data)%Z ->
    0 < MarketData.price data ->
    MarketData.bid data <= MarketData.ask data ->
    0.4 * (IZR (MarketData.volume data) / IZR volume_30day)
    < calculateLiquidityScore data volume_30day
    <= 0.4 * (IZR (MarketData.volume data) / IZR volume_30day) + 0.6.
Proof.
  intros data volume_30day A O P S. unfold calculateLiquidityScore.
  replace (volume_30day =? 0)%Z with false by (symmetry; apply Z.eqb_neq; lia).
  cbv zeta. rewrite std_min_exact. unfold lit. cbn [add sub mul div of_Z exact].
  set (oi := Rmin 1 (IZR (MarketData.open_interest data) / 1000000)).
  set (spread := (MarketData.ask data - MarketData.bid data) / MarketData.price data * 100).
  assert (O1 : 0 <= oi <= 1).
  { unfold oi. split; [|apply Rmin_l].
    apply Rmin_glb; [lra|]. apply IZR_le in O.
    apply Rmult_le_pos; [exact O|]. apply Rlt_le, Rinv_0_lt_compat. lra. }
  assert (S0 : 0 <= spread).
  { unfold spread. apply Rmult_le_pos; [|lra].
    apply Rmult_le_pos; [lra|]. now apply Rlt_le, Rinv_0_lt_compat. }
  assert (S1 : 0 < 1 / (1 + spread) <= 1).
  { split.
    - apply Rdiv_lt_0_compat; lra.
    - apply Rmult_le_reg_r with (1 + spread); [lra|].
      unfold Rdiv. rewrite Rmult_assoc, Rinv_l by lra. lra. }
  lra.
Qed.

Lemma liquidity_score_bounds_witness :
  (0 < 10000)%Z /\
  0.4 * (5000 / 10000) < calculateLiquidityScore (example_quote (D := R)) 10000
  <= 0.4 * (5000 / 10000) + 0.6.
Proof.
  assert (A : (0 < 10000)%Z) by reflexivity. split; [exact A|].
  apply (liquidity_score_bounds example_quote 10000 A); cbn; try lra.
  discriminate.
Defined.
End LiquidityFacts.

Module FV.
#[local] Open Scope float_scope.

Lemma is_nan_true x : is_nan x = true -> Prim2SF x = S754_nan.
Proof.
  intro H. destruct (Prim2SF x) as [s|s| |s m e] eqn:E; try reflexivity;
    assert (N : is_nan x = false) by (apply F.is_nan_spec; rewrite E; discriminate);
    congruence.
Qed.

Lemma leb_nan_l x y : is_nan x = true -> (x <=? y) = false.
Proof. intro H. now rewrite leb_spec, (is_nan_true x H). Qed.

Lemma ltb_nan_l x y : is_nan x = true -> (x <? y) = false.
Proof. intro H. now rewrite ltb_spec, (is_nan_true x H). Qed.

Lemma ltb_nan_r x y : is_nan y = true -> (x <? y) = false.
Proof.
  intro H. rewrite ltb_spec, (is_nan_true y H). unfold SFltb.
  now destruct (Prim2SF x) as [[]|[]| |[] ? ?].
Qed.

Lemma sub_nan_l x y : is_nan x = true -> is_nan (x - y) = true.
Proof.
  intro H. destruct (is_nan (x - y)) eqn:E; [reflexivity|].
  apply F.is_nan_spec in E. rewrite sub_spec, (is_nan_true x H) in E.
  now destruct (Prim2SF y) as [[]|[]| |[] ? ?].
Qed.

Lemma sub_nan_r x y : is_nan y = true -> is_nan (x - y) = true.
Proof.
  intro H. destruct (is_nan (x - y)) eqn:E; [reflexivity|].
  apply F.is_nan_spec in E. rewrite sub_spec, (is_nan_true y H) in E.
  now destruct (Prim2SF x) as [[]|[]| |[] ? ?].
Qed.

Lemma abs_nan_true x : is_nan x = true -> is_nan (abs x) = true.
Proof.
  intro H. destruct (is_nan (abs x)) eqn:E; [reflexivity|].
  apply (proj1 (F.abs_nan x)) in E. rewrite E in H. discriminate.
Qed.

Lemma leb_trans x y z : (x <=? y) = true -> (y <=? z) = true -> (x <=? z) = true.
Proof. rewrite !leb_spec. apply SF.le_trans. Qed.
End FV.

(** X20. On doubles, [checkVolumeConstraints] is closed downwards: when a
    quantity is compliant, so is every quantity that is at most it; and a
    NaN quantity is never compliant. *)
Theorem volume_compliance_is_closed_downwards :
  forall (libm : Libm) (this : PricingEngine.t float) (symbol : string)
         (smaller quantity : float),
    ((smaller <=? quantity)%float = true ->
     checkVolumeConstraints this symbol quantity = true ->
     checkVolumeConstraints this symbol smaller = true) /\
    (is_nan quantity = true -> checkVolumeConstraints this symbol quantity = false).
Proof.
  intros libm this symbol smaller quantity. unfold checkVolumeConstraints.
  cbv zeta. cbn [leb binary64]. split.
  - apply FV.leb_trans.
  - apply FV.leb_nan_l.
Qed.

Section ComplianceRuns.
#[local] Existing Instance no_libm.

(** Against an average of 10000 and the threshold of 5%, 500 is compliant
    and so is 400. *)
Lemma volume_compliance_closed_witness :
  (400 <=? 500)%float = true /\
  checkVolumeConstraints average_10000 "NIFTY" 500%float = true /\
  checkVolumeConstraints average_10000 "NIFTY" 400%float = true /\
  checkVolumeConstraints average_10000 "NIFTY" nan = false.
Proof.
  assert (L : (400 <=? 500)%float = true) by reflexivity.
  assert (C : checkVolumeConstraints average_10000 "NIFTY" 500%float = true)
    by reflexivity.
  split; [exact L|]. split; [exact C|]. split.
  - exact (proj1 (volume_compliance_is_closed_downwards no_libm average_10000 "NIFTY"
                    400%float 500%float) L C).
  - exact (proj2 (volume_compliance_is_closed_downwards no_libm average_10000 "NIFTY"
                    400%float nan) eq_refl).
Defined.
End ComplianceRuns.

(* ================================================================== *)
(** ** Further properties: the choice of a venue by its spread *)

(** X21. On doubles, [selectOptimalExchange] answers BSE whenever the
    relative spread of either quote is NaN, whatever the volumes: so for
    the quote that [getMarketData] makes up for a symbol without one,
    whose price, bid and ask are 0. *)
Theorem a_NaN_spread_selects_BSE :
  forall (libm : Libm) (nse_data bse_data : MarketData.t float),
    is_nan ((MarketData.ask nse_data - MarketData.bid nse_data)
            / MarketData.price nse_data)%float = true \/
    is_nan ((MarketData.ask bse_data - MarketData.bid bse_data)
            / MarketData.price bse_data)%float = true ->
    selectOptimalExchange nse_data bse_data = "BSE".
Proof.
  intros libm nse_data bse_data H. unfold selectOptimalExchange. cbv zeta.
  cbn [ltb fabs sub div binary64].
  set (nse_spread := ((MarketData.ask nse_data - MarketData.bid nse_data)
                      / MarketData.price nse_data)%float) in *.
  set (bse_spread := ((MarketData.ask bse_data - MarketData.bid bse_data)
                      / MarketData.price bse_data)%float) in *.
  assert (A : (abs (nse_spread - bse_spread) <? lit 1 1000)%float = false).
  { apply FV.ltb_nan_l, FV.abs_nan_true.
    destruct H; [now apply FV.sub_nan_l|now apply FV.sub_nan_r]. }
  assert (B : (nse_spread <? bse_spread)%float = false).
  { destruct H; [now apply FV.ltb_nan_l|now apply FV.ltb_nan_r]. }
  cbn [ltb binary64] in A. now rewrite A, B.
Qed.

Section VenueRuns.
#[local] Existing Instance no_libm.

(** NIFTYETF has no quote in [one_quoted]; the quote made up for it has a
    spread of 0/0, and BSE is preferred to the NSE quote of NIFTYBEES. *)
Lemma a_NaN_spread_witness :
  is_nan ((MarketData.ask (getMarketData one_quoted 0 "NIFTYETF" "BSE")
           - MarketData.bid (getMarketData one_quoted 0 "NIFTYETF" "BSE"))
          / MarketData.price (getMarketData one_quoted 0 "NIFTYETF" "BSE"))%float = true /\
  selectOptimalExchange (getMarketData one_quoted 0 "NIFTYBEES" "NSE")
    (getMarketData one_quoted 0 "NIFTYETF" "BSE") = "BSE".
Proof.
  assert (N : is_nan ((MarketData.ask (getMarketData one_quoted 0 "NIFTYETF" "BSE")
                       - MarketData.bid (getMarketData one_quoted 0 "NIFTYETF" "BSE"))
                      / MarketData.price (getMarketData one_quoted 0 "NIFTYETF" "BSE"))%float
              = true) by reflexivity.
  split; [exact N|].
  exact (a_NaN_spread_selects_BSE no_libm
           (getMarketData one_quoted 0 "NIFTYBEES" "NSE")
           (getMarketData one_quoted 0 "NIFTYETF" "BSE") (or_intror N)).
Defined.
End VenueRuns.

(* ================================================================== *)
(** ** Further properties: the margins *)

Section MarginFacts.
#[local] Open Scope R_scope.

Lemma margin_sums {D} `{Double D} (positions : list (OptionContract.t D)) :
  forall sums : D * D,
    fold_left (fun sums position =>
                 (add (fst sums) (calculateSpanMargin position),
                  add (snd sums) (calculateExposureMargin position)))
      positions sums
    = (fold_left (fun sum position => add sum (calculateSpanMargin position))
         positions (fst sums),
       fold_left (fun sum position => add sum (calculateExposureMargin position))
         positions (snd sums)).
Proof.
  induction positions as [|p positions IH]; intros [s e]; [reflexivity|].
  simpl. now rewrite IH.
Qed.

Lemma fold_left_Rplus {A} (f : A -> R) (l : list A) :
  forall s, fold_left (fun sum x => sum + f x) l s = s + fold_right Rplus 0 (map f l).
Proof.
  induction l as [|x l IH]; intro s; simpl; [ring|]. rewrite IH. ring.
Qed.

Lemma margin_of_position_exact (p : OptionContract.t R) :
  calculateSpanMargin p + calculateExposureMargin p = margin_of_position p.
Proof.
  unfold calculateSpanMargin, calculateExposureMargin, margin_of_position, lit.
  cbv zeta. cbn [add mul div of_Z exact].
  destruct (String.eqb _ "OPTION"); [|destruct (String.eqb _ "FUTURE")]; field.
Qed.

Lemma total_margin_exact (positions : list (OptionContract.t R)) :
  MarginRequirement.total_margin (calculateMargin positions)
  = fold_right Rplus 0 (map margin_of_position positions).
Proof.
  unfold calculateMargin. rewrite margin_sums. cbn [fst snd].
  cbn [MarginRequirement.total_margin add of_Z exact].
  rewrite (fold_left_Rplus calculateSpanMargin),
          (fold_left_Rplus calculateExposureMargin).
  induction positions as [|p positions IH]; cbn [map fold_right]; [ring|].
  rewrite <- (margin_of_position_exact p). lra.
Qed.

(** X22. In exact arithmetic the total margin of a portfolio is the sum
    over its positions of: the last price of the contract plus 15 per unit
    of lot size for an option, 15 per unit of lot size for a future, and 5
    per unit of lot size (the exposure part alone) for every other
    instrument type.  So the margin of the empty portfolio is 0, the margin
    is additive over portfolios and it does not depend on the order of the
    positions; the method is always SPAN. *)
Theorem total_margin_is_the_sum_over_positions :
  forall positions others : list (OptionContract.t R),
    MarginRequirement.total_margin (calculateMargin positions)
    = fold_right Rplus 0 (map margin_of_position positions) /\
    MarginRequirement.total_margin (calculateMargin (@nil (OptionContract.t R))) = 0 /\
    MarginRequirement.total_margin (calculateMargin (positions ++ others))
    = MarginRequirement.total_margin (calculateMargin positions)
      + MarginRequirement.total_margin (calculateMargin others) /\
    (Permutation positions others ->
     MarginRequirement.total_margin (calculateMargin positions)
     = MarginRequirement.total_margin (calculateMargin others)) /\
    MarginRequirement.calculation_method (calculateMargin positions) = "SPAN".
Proof.
  intros positions others. rewrite !total_margin_exact.
  split; [reflexivity|]. split; [reflexivity|]. split; [|split].
  - rewrite map_app, fold_right_app.
    generalize (map margin_of_position others). intro l.
    induction (map margin_of_position positions) as [|x xs IH]; simpl; [ring|].
    rewrite IH. ring.
  - intro P. induction P as [|x l l' P IH|x y l|l l' l'' P IH P' IH']; simpl.
    + reflexivity.
    + now rewrite IH.
    + ring.
    + now rewrite IH.
  - unfold calculateMargin. now destruct (fold_left _ _ _).
Qed.

(** A call at 120 with a lot of 50 and a future with a lot of 25, in
    either order: 120 + 750 + 375. *)
Lemma total_margin_witness :
  Permutation
    [position (derivative "NIFTY20000CE" "NIFTY" "OPTION" 20000 0 "CE" 50) 120;
     position (derivative "NIFTYFUT" "NIFTY" "FUTURE" 0 0 "" 25) 20100]
    [position (derivative "NIFTYFUT" "NIFTY" "FUTURE" 0 0 "" 25) 20100;
     position (derivative "NIFTY20000CE" "NIFTY" "OPTION" 20000 0 "CE" 50) 120] /\
  MarginRequirement.total_margin
    (calculateMargin
       [position (derivative "NIFTYFUT" "NIFTY" "FUTURE" 0 0 "" 25) 20100;
        position (derivative "NIFTY20000CE" "NIFTY" "OPTION" 20000 0 "CE" 50) 120])
  = 1245.
Proof.
  assert (P : Permutation
    [position (derivative "NIFTY20000CE" "NIFTY" "OPTION" 20000 0 "CE" 50) 120;
     position (derivative "NIFTYFUT" "NIFTY" "FUTURE" 0 0 "" 25) 20100]
    [position (derivative "NIFTYFUT" "NIFTY" "FUTURE" 0 0 "" 25) 20100;
     position (derivative "NIFTY20000CE" "NIFTY" "OPTION" 20000 0 "CE" 50) 120])
    by apply perm_swap.
  split; [exact P|].
  rewrite <- (proj1 (proj2 (proj2 (proj2
                (total_margin_is_the_sum_over_positions _ _)))) P).
  rewrite (proj1 (total_margin_is_the_sum_over_positions _ [])).
  cbn. lra.
Defined.
End MarginFacts.

(* ================================================================== *)
(** ** Further properties: what the member functions leave alone *)

Section FrameFacts.
Context {D : Type} {num : Double D}.

Lemma updateMarketData_frame (data : list (MarketData.t D)) :
  forall this : PricingEngine.t D,
    PricingEngine.contracts_ (updateMarketData this data)
    = PricingEngine.contracts_ this /\
    PricingEngine.risk_free_rate_ (updateMarketData this data)
    = PricingEngine.risk_free_rate_ this /\
    PricingEngine.volume_threshold_ (updateMarketData this data)
    = PricingEngine.volume_threshold_ this /\
    PricingEngine.implied_volatilities_ (updateMarketData this data)
    = PricingEngine.implied_volatilities_ this.
Proof.
  induction data as [|md data IH]; intro this; [now repeat split|].
  unfold updateMarketData in *. cbn [fold_left].
  destruct (IH (updateHistoricalVolume (store_quote this md)
                  (MarketData.symbol md) (MarketData.volume md))) as (A & B & C & E).
  now rewrite A, B, C, E.
Qed.

(** The clock is read only for the time stamp of a quote that is made
    up. *)
Lemma getMarketData_clock (this : PricingEngine.t D) (now now' : Z)
    (symbol exchange : string) :
  MarketData.price (getMarketData this now symbol exchange)
  = MarketData.price (getMarketData this now' symbol exchange) /\
  MarketData.volume (getMarketData this now symbol exchange)
  = MarketData.volume (getMarketData this now' symbol exchange).
Proof.
  unfold getMarketData.
  destruct (if String.eqb exchange "NSE" then _ else _);
    [|destruct (if String.eqb exchange "BSE" then _ else _)]; now split.
Qed.
End FrameFacts.

(** X23. A batch of quotes changes neither the registry of contracts nor
    the configuration: after [updateMarketData] the contracts of every
    underlying, the risk-free rate, the volume threshold and the implied
    volatilities are as before.  Registering a contract changes neither
    the quotes nor the volume histories, and appending a volume neither
    the quotes nor the contracts. *)
Theorem member_functions_leave_the_rest :
  forall (D : Type) (num : Double D) (this : PricingEngine.t D)
         (data : list (MarketData.t D)) (contract : ContractDetails.t D)
         (now volume : Z) (symbol exchange underlying : string),
    (getContracts (updateMarketData this data) underlying = getContracts this underlying /\
     PricingEngine.risk_free_rate_ (updateMarketData this data)
     = PricingEngine.risk_free_rate_ this /\
     PricingEngine.volume_threshold_ (updateMarketData this data)
     = PricingEngine.volume_threshold_ this /\
     implied_volatility (updateMarketData this data) underlying
     = implied_volatility this underlying) /\
    (getMarketData (addContract this contract) now symbol exchange
     = getMarketData this now symbol exchange /\
     history (addContract this contract) symbol = history this symbol /\
     get30DayAverageVolume (addContract this contract) symbol
     = get30DayAverageVolume this symbol) /\
    (getMarketData (updateHistoricalVolume this underlying volume) now symbol exchange
     = getMarketData this now symbol exchange /\
     getContracts (updateHistoricalVolume this underlying volume) symbol
     = getContracts this symbol).
Proof.
  intros D num this data contract now volume symbol exchange underlying.
  destruct (updateMarketData_frame data this) as (A & B & C & E).
  split; [|now repeat split].
  unfold getContracts, implied_volatility. now rewrite A, B, C, E.
Qed.

(** X24. The fair value of a cash contract depends neither on the clock
    nor on the risk-free rate. *)
Theorem cash_fair_value_ignores_clock_and_rate :
  forall (D : Type) (num : Double D) (this : PricingEngine.t D) (now now' : Z)
         (rate : D) (contract : ContractDetails.t D),
    ContractDetails.instrument_type contract = "CASH" ->
    calculateFairValue (setRiskFreeRate this rate) now' contract
    = calculateFairValue this now contract.
Proof.
  intros D num this now now' rate contract T. unfold calculateFairValue.
  rewrite T. cbn [String.eqb Ascii.eqb Bool.eqb]. cbv zeta.
  change (getMarketData (setRiskFreeRate this rate)) with (getMarketData this).
  destruct (getMarketData_clock this now now' (ContractDetails.symbol contract) "NSE")
    as [-> ->].
  destruct (getMarketData_clock this now now' (ContractDetails.symbol contract) "BSE")
    as [-> ->].
  reflexivity.
Qed.

Section CashRuns.
#[local] Existing Instance no_libm.

Lemma cash_fair_value_ignores_witness :
  ContractDetails.instrument_type (cash (D := float) "NIFTYBEES" "NIFTY") = "CASH" /\
  calculateFairValue (setRiskFreeRate both_quoted 0.5%float) 86400000000000
    (cash "NIFTYBEES" "NIFTY")
  = 100.25%float.
Proof.
  split; [reflexivity|].
  rewrite (cash_fair_value_ignores_clock_and_rate float binary64 both_quoted 0
             86400000000000 0.5%float (cash "NIFTYBEES" "NIFTY") eq_refl).
  reflexivity.
Defined.
End CashRuns.

(* ================================================================== *)
(** ** Further properties: the ranking in exact arithmetic *)

Section ExactRanking.
#[local] Open Scope R_scope.





End ExactRanking.

Section ExactRankingRuns.
#[local] Open Scope R_scope.
#[local] Existing Instance libstdcxx.

End ExactRankingRuns.
